(** * Verification of the crawl pipeline (internal/crawl/crawl.go)

    A shallow embedding of the fetch / parse / provenance pipeline of the
    funding-manifest portal.  Go byte slices are lists of bytes (with the nil
    slice kept apart from the empty one), Go strings are [string], Go [int]
    and [int64] are [Z], a Go [error] is the text of its message, and every
    function that touches the network or the logger is a state transformer
    over the state of the outside world and the trace of what was done. *)

From Stdlib Require Import List ZArith Lia Bool String Ascii.
From Stdlib.Strings Require Import Byte.
From Stdlib Require Import DecimalString.
Import ListNotations.
Local Open Scope string_scope.
Local Open Scope Z_scope.

Set Implicit Arguments.

(** ** Go values *)

(** A Go [error] value is represented by its message; [None] is [nil]. *)
Definition error := string.

(** [[]byte]: [None] is the nil slice, [Some l] a slice holding [l]. *)
Definition ByteSlice := option (list byte).

(** The bytes a slice holds; the nil slice holds none. *)
Definition contents (b : ByteSlice) : list byte :=
  match b with
  | None => []
  | Some l => l
  end.

(** [[]byte(s)] for a Go string [s]. *)
Definition bytes_of (s : string) : list byte := list_byte_of_string s.

(** [bytes.Equal]: same length and same bytes. *)
Fixpoint bytes_Equal (a b : list byte) : bool :=
  match a, b with
  | [], [] => true
  | x :: a', y :: b' => Byte.eqb x y && bytes_Equal a' b'
  | _, _ => false
  end.

(** The byte of the newline character. *)
Definition newline : byte := x0a.

(** [bytes.Split(s, sep)] for a separator of one byte: the pieces of [s]
    between the occurrences of [sep]; always at least one piece. *)
Fixpoint bytes_Split (s : list byte) (sep : byte) : list (list byte) :=
  match s with
  | [] => [[]]
  | c :: rest =>
      if Byte.eqb c sep then [] :: bytes_Split rest sep
      else match bytes_Split rest sep with
           | [] => [[c]]
           | l :: ls => (c :: l) :: ls
           end
  end.

(** [bytes.Join(ls, sep)] for a separator of one byte. *)
Fixpoint bytes_Join (ls : list (list byte)) (sep : byte) : list byte :=
  match ls with
  | [] => []
  | [l] => l
  | l :: ls' => l ++ sep :: bytes_Join ls' sep
  end.

(** [%d] of [fmt] for an integer. *)
Definition fmt_d (z : Z) : string := NilZero.string_of_int (Z.to_int z).

(** ** The scan of the disclosure list (the loop of CheckProvenance) *)

Definition errTooManyLines : error :=
  "too many lines in the .well-known list".

Definition errNotFound (manifestURL : string) : error :=
  "manifest URL " ++ manifestURL ++ " was not found in the .well-known list".

(** The [for n, b := range lines] loop, from index [n] on.  The second
    component counts the lines that were compared with [ub]; it is a ghost
    counter, the code returns the first component only. *)
Fixpoint scanLines (ub : list byte) (manifestURL : string)
         (lines : list (list byte)) (n : Z) : option error * nat :=
  match lines with
  | [] => (Some (errNotFound manifestURL), 0%nat)
  | b :: rest =>
      if bytes_Equal ub b then (None, 1%nat)
      else if 100 <? n then (Some errTooManyLines, 1%nat)
      else let '(r, k) := scanLines ub manifestURL rest (n + 1) in (r, S k)
  end.

(** Results of the Go library calls that return [(value, error)]. *)
Inductive result (A : Type) : Type :=
| Ok (a : A)
| Err (e : error).
Arguments Ok {A} a.
Arguments Err {A} e.

(** ** The manifest (package internal/schemas/v1) *)

Module v1.

(** Modelled from the spec: the type [v1.URL] is declared in
    internal/schemas/v1, outside this package.  A reference to a URL with
    the optional pointer to the disclosure list of its domain. *)
Record URL : Type := mkURL {
  URLstr : string;
  WellKnown : string
}.

(** Modelled from the spec: the entity record of [v1.Manifest], with the
    one field crawl.go reads. *)
Record Entity : Type := mkEntity {
  EntityWebpageURL : URL
}.

(** Modelled from the spec: a project record of [v1.Manifest], with the
    two fields crawl.go reads. *)
Record Project : Type := mkProject {
  WebpageURL : URL;
  RepositoryUrl : URL
}.

(** Modelled from the spec: the type [v1.Manifest] is declared in
    internal/schemas/v1; these are the fields crawl.go reads or writes. *)
Record Manifest : Type := mkManifest {
  ManifestURL : string;
  Body : ByteSlice;
  TheEntity : Entity;
  Projects : list Project
}.

(** [v1.Manifest{}] *)
Definition zero : Manifest :=
  mkManifest "" None (mkEntity (mkURL "" "")) [].

Definition stamp (m : Manifest) (u : string) (b : ByteSlice) : Manifest :=
  mkManifest u b (TheEntity m) (Projects m).

End v1.

(** The [Schema] interface: a value with one method. *)
Record Schema : Type := mkSchema {
  Validate : v1.Manifest -> v1.Manifest * option error
}.

(** ** net/http as far as crawl.go uses it *)

Module http.

Definition MethodGet := "GET".
Definition MethodPost := "POST".
Definition MethodPut := "PUT".
Definition MethodDelete := "DELETE".
Definition StatusOK : Z := 200.

(** [http.Header]; keys are taken in their canonical spelling. *)
Definition Header := list (string * list string).

Fixpoint Get (h : Header) (key : string) : string :=
  match h with
  | [] => ""
  | (k, vs) :: h' =>
      if String.eqb k key then hd "" vs else Get h' key
  end.

Fixpoint Add (h : Header) (key v : string) : Header :=
  match h with
  | [] => [(key, [v])]
  | (k, vs) :: h' =>
      if String.eqb k key then (k, (vs ++ [v])%list) :: h'
      else (k, vs) :: Add h' key v
  end.

Fixpoint Set_ (h : Header) (key v : string) : Header :=
  match h with
  | [] => [(key, [v])]
  | (k, vs) :: h' =>
      if String.eqb k key then (k, [v]) :: h'
      else (k, vs) :: Set_ h' key v
  end.

(** [url.URL]: the parts of a parsed URL. *)
Record URL : Type := mkURL {
  Scheme : string;
  Host : string;
  Path : string;
  RawQuery : string;
  Fragment : string
}.

Definition withRawQuery (u : URL) (q : string) : URL :=
  mkURL (Scheme u) (Host u) (Path u) q (Fragment u).

(** [http.Request]; [ReqBody] is the reader given to [NewRequest]. *)
Record Request : Type := mkRequest {
  Method : string;
  ReqURL : URL;
  ReqHeader : Header;
  ReqBody : option (list byte)
}.

(** An [io.Reader]: the bytes it delivers, and how it ends once they are
    delivered: [None] for [io.EOF], [Some e] for a read error.  A reader
    reports its end either by the [Read] that delivers its last bytes
    ([rwith] is [true]) or by a [Read] of its own after them ([false]). *)
Record Reader : Type := mkReader {
  rdata : list byte;
  rend : option error;
  rwith : bool
}.

(** Whether a read through [io.LimitReader(r, n)] meets the end of [r].
    [LimitedReader.Read] answers EOF without reading once [n] bytes are
    through, and before that hands on what [r] returns, bytes and error
    alike: the end of [r] is met when [r] holds fewer than [n] bytes, and
    also when it holds exactly [n > 0] bytes and reports its end with the
    last of them. *)
Definition endMet (r : Reader) (n : Z) : bool :=
  (Z.of_nat (List.length (rdata r)) <? n)
  || ((Z.of_nat (List.length (rdata r)) =? n) && (0 <? n) && rwith r).

(** [io.LimitReader(r, n)]: [r] itself when its end is met within the
    limit, otherwise the first [n] bytes of [r] followed by EOF. *)
Definition LimitReader (r : Reader) (n : Z) : Reader :=
  if endMet r n then r
  else mkReader (firstn (Z.to_nat n) (rdata r)) None false.

(** [io.ReadAll]: everything up to the end; EOF is no error. *)
Definition ReadAll (r : Reader) : list byte * option error :=
  (rdata r, rend r).

(** [http.Response] *)
Record Response : Type := mkResponse {
  StatusCode : Z;
  RespBody : Reader
}.

End http.

(** ** Configuration and the crawler *)

Record Opt : Type := mkOpt {
  UserAgent : string;
  MaxHostConns : Z;
  ReqTimeout : Z;
  Attempts : Z;
  MaxBytes : Z
}.

(** The [Crawl] struct.  The HTTP client [hc] and the logger [lo] act on the
    outside world and are part of the state below. *)
Record Crawl : Type := mkCrawl {
  opt : Opt;
  sc : Schema;
  headers : http.Header
}.

Definition New (o : Opt) (s : Schema) : Crawl :=
  mkCrawl o s (http.Set_ [] "User-Agent" (UserAgent o)).

(** What the crawler does to the outside world, in order. *)
Inductive Event : Type :=
| EvDo (req : http.Request)     (* c.hc.Do(req) *)
| EvDrain                       (* the deferred drain and close of r.Body *)
| EvLog (line : string).        (* c.lo.Printf *)

(** ** Fixtures for the examples

    A scripted outside world: the answers the client will get, one per
    exchange, and small stand-ins for the Go library calls. *)

Module Demo.

(** The world is the list of answers still to come. *)
Definition World : Type := list (result http.Response).

Definition Do (req : http.Request) (w : World)
  : result http.Response * World :=
  match w with
  | [] => (Err "connection refused", [])
  | r :: w' => (r, w')
  end.

Fixpoint cutQuery (s : string) : string * string :=
  match s with
  | EmptyString => (EmptyString, EmptyString)
  | String ch rest =>
      if Ascii.eqb ch "?"%char then (EmptyString, rest)
      else let (p, q) := cutQuery rest in (String ch p, q)
  end.

(** A stand-in for [url.Parse]: a URL that starts with a colon has no
    scheme and is refused; the query starts after the first [?]. *)
Definition Parse (s : string) : result http.URL :=
  match s with
  | String ":"%char _ => Err "missing protocol scheme"
  | _ => let (p, q) := cutQuery s in Ok (http.mkURL "" "" p q "")
  end.

Definition ref (wk : string) : v1.URL := v1.mkURL "https://a.example" wk.

Definition manifest2 : v1.Manifest :=
  v1.mkManifest "" None
    (v1.mkEntity (ref "https://a.example/.well-known/funding-manifest-urls"))
    [ v1.mkProject (ref "https://p1.example/wk") (ref "https://r1.example/wk");
      v1.mkProject (ref "https://p2.example/wk") (ref "https://r2.example/wk") ].

(** A stand-in for the JSON decoder: any body but the empty one decodes to
    [manifest2]. *)
Definition Unmarshal (b : ByteSlice) : v1.Manifest * option error :=
  match contents b with
  | [] => (v1.zero, Some "unexpected end of JSON input")
  | _ => (manifest2, None)
  end.

(** A validator that accepts every manifest as it is. *)
Definition accept : Schema := mkSchema (fun m => (m, None)).

(** A validator that refuses every manifest and hands back the zero one. *)
Definition refuse : Schema := mkSchema (fun _ => (v1.zero, Some "invalid")).

Definition crawl (attempts maxBytes : Z) (s : Schema) : Crawl :=
  New (mkOpt "portal" 10 5 attempts maxBytes) s.

Definition ok (body : string) : result http.Response :=
  Ok (http.mkResponse 200 (http.mkReader (bytes_of body) None false)).

Definition status (code : Z) : result http.Response :=
  Ok (http.mkResponse code (http.mkReader [] None false)).

Definition nl : string := String (ascii_of_byte newline) EmptyString.

(** [k] lines, each holding [line], joined by newlines. *)
Fixpoint linesOf (k : nat) (line : string) : string :=
  match k with
  | O => ""
  | S O => line
  | S k' => line ++ nl ++ linesOf k' line
  end.

Definition funding : string := "https://a.example/funding.json".

Definition wk : string :=
  "https://a.example/.well-known/funding-manifest-urls".

(** Three attempts, bodies up to 1000 bytes, every manifest accepted. *)
Definition c3 : Crawl := crawl 3 1000 accept.

(** The disclosure list of the examples in the spec. *)
Definition twoLines : string := funding ++ nl ++ "https://other".

(** A validator that hands its argument back with an error. *)
Definition echo : Schema := mkSchema (fun m => (m, Some "echo")).

(** A response with status 200 whose body breaks off with a read error,
    reported with the last bytes or after them. *)
Definition broken (body : string) (withLast : bool)
  : result http.Response :=
  Ok (http.mkResponse 200
        (http.mkReader (bytes_of body) (Some "unexpected EOF") withLast)).

End Demo.

(** ** The pipeline *)

Section Pipeline.

(** The state of everything outside the process (servers, network, time). *)
Variable World : Type.

(** [url.Parse] of the Go library, as [http.NewRequest] calls it. *)
Variable url_Parse : string -> result http.URL.

(** [c.hc.Do]: one HTTP exchange; it answers with a response or with a
    transport error, and changes the world. *)
Variable hc_Do : http.Request -> World -> result http.Response * World.

(** The method [UnmarshalJSON] of a zero [v1.Manifest]: the manifest it
    leaves behind and its error. *)
Variable UnmarshalJSON : ByteSlice -> v1.Manifest * option error.

Record St : Type := mkSt {
  world : World;
  trace : list Event
}.

(** Computations that act on the world. *)
Definition M (A : Type) : Type := St -> A * St.

Definition ret {A : Type} (a : A) : M A := fun s => (a, s).

Definition bind {A B : Type} (m : M A) (f : A -> M B) : M B :=
  fun s => let (a, s') := m s in f a s'.

Notation "x <- m ;; k" := (bind m (fun x => k))
  (at level 61, m at next level, right associativity).
Notation "' p <- m ;; k" := (bind m (fun x => let 'p := x in k))
  (at level 61, p pattern, m at next level, right associativity).

Definition emit (e : Event) : M unit :=
  fun s => (tt, mkSt (world s) (trace s ++ [e])%list).

Definition client_Do (req : http.Request) : M (result http.Response) :=
  fun s =>
    let (r, w) := hc_Do req (world s) in
    (r, mkSt w (trace s ++ [EvDo req])%list).

(** [http.NewRequest] for the method constants used here. *)
Definition NewRequest (method rURL : string) (body : option (list byte))
  : result http.Request :=
  match url_Parse rURL with
  | Err e => Err e
  | Ok u => Ok (http.mkRequest method u [] body)
  end.

Definition isPostOrPut (method : string) : bool :=
  String.eqb method http.MethodPost || String.eqb method http.MethodPut.

Definition isGetOrDelete (method : string) : bool :=
  String.eqb method http.MethodGet || String.eqb method http.MethodDelete.

(** The request [doReq] hands to the client, from the one [NewRequest]
    built: headers, default content type, query string. *)
Definition prepare (method : string) (reqBody : ByteSlice)
           (hdrs : option http.Header) (req : http.Request) : http.Request :=
  let h := match hdrs with Some h => h | None => [] end in
  let h := if String.eqb (http.Get h "Content-Type") "" then
             if isPostOrPut method
             then http.Add h "Content-Type" "application/json"
             else h
           else h in
  let u := if isGetOrDelete method
           then http.withRawQuery (http.ReqURL req)
                  (string_of_list_byte (contents reqBody))
           else http.ReqURL req in
  http.mkRequest (http.Method req) u h (http.ReqBody req).

(** What [doReq] makes of a response. *)
Definition readResponse (c : Crawl) (rURL : string) (r : http.Response)
  : ByteSlice * bool * option error :=
  if negb (http.StatusCode r =? http.StatusOK) then
    (None, false, Some (rURL ++ " returned " ++ fmt_d (http.StatusCode r)))
  else
    match http.ReadAll (http.LimitReader (http.RespBody r) (MaxBytes (opt c))) with
    | (_, Some e) => (None, true, Some e)
    | (body, None) => (Some body, false, None)
    end.

(** [doReq] up to its deferred log line. *)
Definition doReq_run (c : Crawl) (method rURL : string) (reqBody : ByteSlice)
           (hdrs : option http.Header)
  : M (ByteSlice * bool * option error) :=
  let postBody := if isPostOrPut method then Some (contents reqBody)
                  else None in
  match NewRequest method rURL postBody with
  | Err e => ret (None, true, Some e)
  | Ok req =>
      r <- client_Do (prepare method reqBody hdrs req) ;;
      match r with
      | Err e => ret (None, true, Some e)
      | Ok r =>
          _ <- emit EvDrain ;;
          ret (readResponse c rURL r)
      end
  end.

Definition logLine (method rURL : string) (retErr : option error) : string :=
  let msg := match retErr with Some e => e | None => "OK" end in
  method ++ " " ++ rURL ++ " -> " ++ msg.

(** [doReq]: the result, the retriable flag and the error. *)
Definition doReq (c : Crawl) (method rURL : string) (reqBody : ByteSlice)
           (hdrs : option http.Header)
  : M (ByteSlice * bool * option error) :=
  res <- doReq_run c method rURL reqBody hdrs ;;
  _ <- emit (EvLog (logLine method rURL (snd res))) ;;
  ret res.

Definition isNil (e : option error) : bool :=
  match e with None => true | Some _ => false end.

(** The retry loop of [fetch] with [k] iterations left; [acc] holds the
    variables [body] and [err] as the loop found them. *)
Fixpoint fetchLoop (c : Crawl) (u : string) (k : nat)
         (acc : ByteSlice * option error) : M (ByteSlice * option error) :=
  match k with
  | O => ret acc
  | S k' =>
      '(body, retry, err) <-
         doReq c http.MethodGet u None (Some (headers c)) ;;
      if isNil err || negb retry then ret (body, err)
      else fetchLoop c u k' (body, err)
  end.

(** [fetch]: the loop runs [n = 0 .. Attempts-1]. *)
Definition fetch (c : Crawl) (u : string) : M (ByteSlice * option error) :=
  '(body, err) <- fetchLoop c u (Z.to_nat (Attempts (opt c))) (None, None) ;;
  match err with
  | Some e => ret (None, Some e)
  | None => ret (body, None)
  end.

Definition CheckProvenance (c : Crawl) (u : v1.URL) (manifestURL : string)
  : M (option error) :=
  if String.eqb (v1.WellKnown u) "" then ret None
  else
    '(body, err) <- fetch c (v1.WellKnown u) ;;
    match err with
    | Some e => ret (Some e)
    | None =>
        ret (fst (scanLines (bytes_of manifestURL) manifestURL
                    (bytes_Split (contents body) newline) 0))
    end.

(** The [for _, o := range m.Projects] loop of [ParseManifest]. *)
Fixpoint checkProjects (c : Crawl) (ps : list v1.Project)
         (manifestURL : string) : M (option error) :=
  match ps with
  | [] => ret None
  | o :: rest =>
      e1 <- CheckProvenance c (v1.WebpageURL o) manifestURL ;;
      match e1 with
      | Some e => ret (Some e)
      | None =>
          e2 <- CheckProvenance c (v1.RepositoryUrl o) manifestURL ;;
          match e2 with
          | Some e => ret (Some e)
          | None => checkProjects c rest manifestURL
          end
      end
  end.

Definition ParseManifest (c : Crawl) (b : ByteSlice) (manifestURL : string)
           (checkProvenance : bool) : M (v1.Manifest * option error) :=
  match UnmarshalJSON b with
  | (m, Some err) => ret (m, Some ("error parsing JSON body: " ++ err))
  | (m, None) =>
      let m := v1.stamp m manifestURL b in
      match Validate (sc c) m with
      | (v, Some err) => ret (v, Some err)
      | (v, None) =>
          let m := v in
          if checkProvenance then
            e0 <- CheckProvenance c (v1.EntityWebpageURL (v1.TheEntity m))
                    manifestURL ;;
            match e0 with
            | Some e => ret (m, Some e)
            | None =>
                e1 <- checkProjects c (v1.Projects m) manifestURL ;;
                match e1 with
                | Some e => ret (m, Some e)
                | None => ret (m, None)
                end
            end
          else ret (m, None)
      end
  end.

Definition FetchManifest (c : Crawl) (manifestURL : string)
  : M (v1.Manifest * option error) :=
  '(b, err) <- fetch c manifestURL ;;
  match err with
  | Some e => ret (v1.zero, Some e)
  | None => ParseManifest c b manifestURL true
  end.

(** *** Observers used in the statements *)

(** The request [fetch] sends for a URL that parsed to [pu]. *)
Definition sentRequest (c : Crawl) (pu : http.URL) : http.Request :=
  prepare http.MethodGet None (Some (headers c))
    (http.mkRequest http.MethodGet pu [] None).

Definition isLog (e : Event) : bool :=
  match e with EvLog _ => true | _ => false end.

Definition isDo (e : Event) : bool :=
  match e with EvDo _ => true | _ => false end.

(** Every call of [doReq] writes one log line, so the log lines of a
    trace count the attempts made. *)
Definition attempts (t : list Event) : nat :=
  List.length (filter isLog t).

(** The exchanges with servers a trace holds. *)
Definition exchanges (t : list Event) : nat :=
  List.length (filter isDo t).

(** [Transient c u s es s']: from [s], successive attempts on [u] fail
    with the retriable errors [es], one after the other, and leave [s']. *)
Inductive Transient (c : Crawl) (u : string)
  : St -> list error -> St -> Prop :=
| Transient_nil : forall s, Transient c u s [] s
| Transient_cons : forall s s1 s2 b e es,
    doReq c http.MethodGet u None (Some (headers c)) s
      = ((b, true, Some e), s1) ->
    Transient c u s1 es s2 ->
    Transient c u s (e :: es) s2.

(** What an attempt adds to the trace. *)
Inductive AttemptTrace (c : Crawl) (u : string) : list Event -> Prop :=
| AT_parse : forall line, AttemptTrace c u [EvLog line]
| AT_error : forall pu line,
    url_Parse u = Ok pu ->
    AttemptTrace c u [EvDo (sentRequest c pu); EvLog line]
| AT_response : forall pu line,
    url_Parse u = Ok pu ->
    AttemptTrace c u [EvDo (sentRequest c pu); EvDrain; EvLog line].

(** What the loop variables hold after the failures [es]. *)
Definition afterFailures (es : list error) (acc : ByteSlice * option error)
  : ByteSlice * option error :=
  match es with
  | [] => acc
  | _ => (None, Some (last es ""))
  end.

(** The requests of a trace are the ones [fetch] sends for [u]. *)
Definition requestsFor (c : Crawl) (u : string) (evs : list Event) : Prop :=
  Forall (fun ev => forall req, ev = EvDo req ->
            exists pu, url_Parse u = Ok pu /\ req = sentRequest c pu) evs.

(** The references of a manifest in document order: the entity, then for
    each project its webpage and its repository. *)
Definition provenanceRefs (m : v1.Manifest) : list v1.URL :=
  v1.EntityWebpageURL (v1.TheEntity m)
  :: flat_map (fun o => [v1.WebpageURL o; v1.RepositoryUrl o])
       (v1.Projects m).

(** [Passed c murl us s s']: from [s], the checks of [us], run one after
    the other in the order of the list, all pass and leave [s']. *)
Inductive Passed (c : Crawl) (manifestURL : string)
  : list v1.URL -> St -> St -> Prop :=
| Passed_nil : forall s, Passed c manifestURL [] s s
| Passed_cons : forall u us s s1 s2,
    CheckProvenance c u manifestURL s = (None, s1) ->
    Passed c manifestURL us s1 s2 ->
    Passed c manifestURL (u :: us) s s2.

(** Checks of a list of references, stopping at the first failure. *)
Fixpoint checkAll (c : Crawl) (us : list v1.URL) (manifestURL : string)
  : M (option error) :=
  match us with
  | [] => ret None
  | u :: rest =>
      e <- CheckProvenance c u manifestURL ;;
      match e with
      | Some err => ret (Some err)
      | None => checkAll c rest manifestURL
      end
  end.

Definition isDrain (e : Event) : bool :=
  match e with EvDrain => true | _ => false end.

(** The response bodies a trace drained and closed. *)
Definition drains (t : list Event) : nat :=
  List.length (filter isDrain t).

Definition hasWellKnown (u : v1.URL) : bool :=
  negb (String.eqb (v1.WellKnown u) "").

(** The references of a manifest that point to a disclosure list. *)
Definition checkedRefs (m : v1.Manifest) : list v1.URL :=
  filter hasWellKnown (provenanceRefs m).

(** What an attempt hands back: a body or an error, never both, and a body
    no longer than [MaxBytes] allows. *)
Definition wellFormedResult (c : Crawl) (res : ByteSlice * option error)
  : Prop :=
  match snd res with
  | Some _ => fst res = None
  | None => exists b, fst res = Some b
              /\ Z.of_nat (List.length b) <= Z.max 0 (MaxBytes (opt c))
  end.

(** ** Facts about byte slices and the scan *)

Unset Implicit Arguments.

Lemma byte_eqb_iff (x y : byte) : Byte.eqb x y = true <-> x = y.
Proof.
  split; [apply Byte.byte_dec_bl | apply Byte.byte_dec_lb].
Qed.

Lemma bytes_Equal_spec (a b : list byte) :
  bytes_Equal a b = true <-> a = b.
Proof.
  revert b; induction a as [|x a IH]; intros [|y b]; simpl;
    try (split; [discriminate | congruence]); try tauto.
  rewrite andb_true_iff, IH, byte_eqb_iff.
  split; [intros [-> ->]; reflexivity | intros H; inversion H; auto].
Qed.

Lemma bytes_Equal_false (a b : list byte) :
  bytes_Equal a b = false <-> a <> b.
Proof.
  rewrite <- bytes_Equal_spec. destruct (bytes_Equal a b); split;
    congruence.
Qed.

Lemma bytes_Equal_refl (a : list byte) : bytes_Equal a a = true.
Proof. apply bytes_Equal_spec; reflexivity. Qed.

(** A test that decides the absence of a line. *)
Lemma absent_by_Equal (ub : list byte) (ls : list (list byte)) :
  existsb (bytes_Equal ub) ls = false -> ~ In ub ls.
Proof.
  intros H Hin.
  assert (E : existsb (bytes_Equal ub) ls = true).
  { apply existsb_exists. exists ub. split; [exact Hin|].
    apply bytes_Equal_refl. }
  congruence.
Qed.

Lemma bytes_Split_nonempty (s : list byte) (sep : byte) :
  bytes_Split s sep <> [].
Proof.
  destruct s as [|ch s]; simpl; [discriminate|].
  destruct (Byte.eqb ch sep); [discriminate|].
  destruct (bytes_Split s sep); discriminate.
Qed.

(** Joining the pieces with the separator gives the input back. *)
Lemma bytes_Join_Split (s : list byte) (sep : byte) :
  bytes_Join (bytes_Split s sep) sep = s.
Proof.
  induction s as [|ch s IH]; [reflexivity|].
  simpl. destruct (Byte.eqb ch sep) eqn:E.
  - apply byte_eqb_iff in E; subst ch.
    pose proof (bytes_Split_nonempty s sep) as NE.
    destruct (bytes_Split s sep) as [|l ls]; [congruence|].
    simpl in *. now rewrite IH.
  - pose proof (bytes_Split_nonempty s sep) as NE.
    destruct (bytes_Split s sep) as [|l ls]; [congruence|].
    destruct ls as [|l' ls]; simpl in *; now rewrite <- IH.
Qed.

(** No piece holds the separator. *)
Lemma bytes_Split_no_sep (s : list byte) (sep : byte) :
  Forall (fun l => ~ In sep l) (bytes_Split s sep).
Proof.
  induction s as [|ch s IH]; simpl.
  - constructor; [easy | constructor].
  - destruct (Byte.eqb ch sep) eqn:E.
    + constructor; [easy | exact IH].
    + destruct (bytes_Split s sep) as [|l ls].
      * constructor; [|constructor].
        intros [->|[]]. rewrite (Byte.byte_dec_lb eq_refl) in E.
        discriminate.
      * inversion IH; subst. constructor; [|assumption].
        intros [->|H]; [|tauto].
        rewrite (Byte.byte_dec_lb eq_refl) in E. discriminate.
Qed.

(** The pieces are as many as the separators, plus one. *)
Lemma bytes_Split_length (s : list byte) (sep : byte) :
  List.length (bytes_Split s sep)
  = S (List.length (filter (fun ch => Byte.eqb ch sep) s)).
Proof.
  induction s as [|ch s IH]; [reflexivity|].
  simpl. destruct (Byte.eqb ch sep); simpl; [now rewrite IH|].
  pose proof (bytes_Split_nonempty s sep) as NE.
  destruct (bytes_Split s sep) as [|l ls]; [congruence|exact IH].
Qed.

Lemma errNotFound_not_tooMany (m : string) :
  errNotFound m <> errTooManyLines.
Proof. discriminate. Qed.

Section Scan.

Variable manifestURL : string.
Let ub := bytes_of manifestURL.

(** A match at a position the scan reaches ends it with success; the
    lines after it are not looked at. *)
Lemma scan_hit (pre post : list (list byte)) (n : Z) :
  ~ In ub pre ->
  n + Z.of_nat (List.length pre) <= 101 ->
  scanLines ub manifestURL (pre ++ ub :: post) n
  = (None, S (List.length pre)).
Proof.
  revert n; induction pre as [|b pre IH]; intros n Hnot Hlen; simpl.
  - now rewrite bytes_Equal_refl.
  - simpl in Hnot, Hlen.
    assert (Hb : bytes_Equal ub b = false)
      by (apply bytes_Equal_false; intros ->; tauto).
    rewrite Hb.
    assert (Hn : (100 <? n) = false) by (apply Z.ltb_ge; lia).
    rewrite Hn, IH; [reflexivity | tauto | lia].
Qed.

(** A list without a match whose last line has index 100 at most is
    scanned to its end. *)
Lemma scan_miss (lines : list (list byte)) (n : Z) :
  ~ In ub lines ->
  n + Z.of_nat (List.length lines) <= 101 ->
  scanLines ub manifestURL lines n
  = (Some (errNotFound manifestURL), List.length lines).
Proof.
  revert n; induction lines as [|b lines IH]; intros n Hnot Hlen; simpl.
  - reflexivity.
  - simpl in Hnot, Hlen.
    assert (Hb : bytes_Equal ub b = false)
      by (apply bytes_Equal_false; intros ->; tauto).
    rewrite Hb.
    assert (Hn : (100 <? n) = false) by (apply Z.ltb_ge; lia).
    rewrite Hn, IH; [reflexivity | tauto | lia].
Qed.

(** With [j] lines allowed after the current one, the scan gives up on
    the line of index 101, after comparing it. *)
Lemma scan_cap (j : nat) (lines : list (list byte)) (n : Z) :
  n = 101 - Z.of_nat j ->
  (j < List.length lines)%nat ->
  ~ In ub (firstn (S j) lines) ->
  scanLines ub manifestURL lines n = (Some errTooManyLines, S j).
Proof.
  revert lines n; induction j as [|j IH]; intros [|b lines] n Hn Hlen Hnot;
    simpl in Hlen; try lia.
  - simpl. simpl in Hnot.
    assert (Hb : bytes_Equal ub b = false)
      by (apply bytes_Equal_false; intros ->; tauto).
    rewrite Hb.
    assert (H100 : (100 <? n) = true) by (apply Z.ltb_lt; lia).
    now rewrite H100.
  - change (firstn (S (S j)) (b :: lines))
      with (b :: firstn (S j) lines) in Hnot.
    cbn [scanLines].
    assert (Hb : bytes_Equal ub b = false)
      by (apply bytes_Equal_false; intros ->; apply Hnot; now left).
    rewrite Hb.
    assert (H100 : (100 <? n) = false) by (apply Z.ltb_ge; lia).
    rewrite H100, (IH lines (n + 1)); [reflexivity | lia | lia |].
    intros H; apply Hnot; now right.
Qed.

(** The converse: the scan gives up only there. *)
Lemma scan_cap_inv (lines : list (list byte)) (n : Z) (j k : nat) :
  n = 101 - Z.of_nat j ->
  scanLines ub manifestURL lines n = (Some errTooManyLines, k) ->
  (j < List.length lines)%nat /\ ~ In ub (firstn (S j) lines) /\ k = S j.
Proof.
  revert n j k; induction lines as [|b lines IH]; intros n j k Hn;
    cbn [scanLines].
  - intros H; inversion H.
  - destruct (bytes_Equal ub b) eqn:Hb; [discriminate|].
    apply bytes_Equal_false in Hb.
    destruct (100 <? n) eqn:H100.
    + apply Z.ltb_lt in H100. assert (j = 0%nat) by lia; subst j.
      intros H; inversion H; subst. repeat split; [simpl; lia|].
      simpl. intros [E|[]]. congruence.
    + apply Z.ltb_ge in H100. destruct j as [|j]; [simpl in Hn; lia|].
      destruct (scanLines ub manifestURL lines (n + 1)) as [r k'] eqn:E.
      intros H; inversion H; subst r k.
      destruct (IH (n + 1) j k' ltac:(lia) E) as (Hl & Hnot & ->).
      repeat split; [simpl; lia|].
      change (firstn (S (S j)) (b :: lines))
        with (b :: firstn (S j) lines).
      intros [E'|E']; [congruence | tauto].
Qed.

End Scan.

(** ** Facts about one attempt *)

Lemma attempts_app (t1 t2 : list Event) :
  attempts (t1 ++ t2) = (attempts t1 + attempts t2)%nat.
Proof. unfold attempts. now rewrite filter_app, length_app. Qed.

Lemma exchanges_app (t1 t2 : list Event) :
  exchanges (t1 ++ t2) = (exchanges t1 + exchanges t2)%nat.
Proof. unfold exchanges. now rewrite filter_app, length_app. Qed.

(** The three ways an attempt of [fetch] can go. *)
Lemma doReq_parse_error (c : Crawl) (u : string) (s : St) (e : error) :
  url_Parse u = Err e ->
  doReq c http.MethodGet u None (Some (headers c)) s
  = ((None, true, Some e),
     mkSt (world s)
       (trace s ++ [EvLog (logLine http.MethodGet u (Some e))])).
Proof.
  intros Hp. unfold doReq, doReq_run, NewRequest, bind, ret, emit.
  rewrite Hp. reflexivity.
Qed.

Lemma doReq_transport_error (c : Crawl) (u : string) (s : St)
      (pu : http.URL) (e : error) (w : World) :
  url_Parse u = Ok pu ->
  hc_Do (sentRequest c pu) (world s) = (Err e, w) ->
  doReq c http.MethodGet u None (Some (headers c)) s
  = ((None, true, Some e),
     mkSt w (trace s ++ [EvDo (sentRequest c pu);
                         EvLog (logLine http.MethodGet u (Some e))])).
Proof.
  intros Hp Hd.
  unfold doReq, doReq_run, NewRequest, bind, ret, emit, client_Do.
  rewrite Hp. change (isPostOrPut http.MethodGet) with false. cbv iota.
  change (prepare http.MethodGet None (Some (headers c))
            (http.mkRequest http.MethodGet pu [] None))
    with (sentRequest c pu).
  rewrite Hd. cbn. now rewrite <- app_assoc.
Qed.

Lemma doReq_response (c : Crawl) (u : string) (s : St)
      (pu : http.URL) (r : http.Response) (w : World) :
  url_Parse u = Ok pu ->
  hc_Do (sentRequest c pu) (world s) = (Ok r, w) ->
  doReq c http.MethodGet u None (Some (headers c)) s
  = (readResponse c u r,
     mkSt w (trace s ++
               [EvDo (sentRequest c pu); EvDrain;
                EvLog (logLine http.MethodGet u
                         (snd (readResponse c u r)))])).
Proof.
  intros Hp Hd.
  unfold doReq, doReq_run, NewRequest, bind, ret, emit, client_Do.
  rewrite Hp. change (isPostOrPut http.MethodGet) with false. cbv iota.
  change (prepare http.MethodGet None (Some (headers c))
            (http.mkRequest http.MethodGet pu [] None))
    with (sentRequest c pu).
  rewrite Hd. cbn. now rewrite <- !app_assoc.
Qed.

Lemma doReq_cases (c : Crawl) (u : string) (s : St) :
  exists res w evs,
    doReq c http.MethodGet u None (Some (headers c)) s
    = (res, mkSt w (trace s ++ evs))
    /\ AttemptTrace c u evs
    /\ (snd res <> None -> fst (fst res) = None).
Proof.
  destruct (url_Parse u) as [pu|e] eqn:Hp.
  - destruct (hc_Do (sentRequest c pu) (world s)) as [[r|e] w] eqn:Hd.
    + rewrite (doReq_response c u s pu r w Hp Hd).
      do 3 eexists; split; [reflexivity|]. split; [now constructor|].
      unfold readResponse.
      destruct (negb (http.StatusCode r =? http.StatusOK)); [reflexivity|].
      destruct (http.ReadAll _) as [bd [e|]]; simpl; congruence.
    + rewrite (doReq_transport_error c u s pu e w Hp Hd).
      do 3 eexists; split; [reflexivity|]. split; [now constructor|].
      reflexivity.
  - rewrite (doReq_parse_error c u s e Hp).
    do 3 eexists; split; [reflexivity|]. split; [constructor|].
    reflexivity.
Qed.

Lemma AttemptTrace_counts (c : Crawl) (u : string) (evs : list Event) :
  AttemptTrace c u evs ->
  attempts evs = 1%nat /\ (exchanges evs <= 1)%nat.
Proof. intros []; cbn; lia. Qed.

(** Each attempt is logged once. *)
Lemma doReq_attempts (c : Crawl) (u : string) (s s1 : St) res :
  doReq c http.MethodGet u None (Some (headers c)) s = (res, s1) ->
  attempts (trace s1) = S (attempts (trace s)).
Proof.
  intros H. destruct (doReq_cases c u s) as (res' & w & evs & E & HT & _).
  rewrite E in H. inversion H; subst. cbn [trace].
  rewrite attempts_app. destruct (AttemptTrace_counts _ _ _ HT). lia.
Qed.

(** A failed attempt hands back no body. *)
Lemma doReq_error_body (c : Crawl) (u : string) (s s1 : St) b retry e :
  doReq c http.MethodGet u None (Some (headers c)) s
  = ((b, retry, Some e), s1) ->
  b = None.
Proof.
  intros H. destruct (doReq_cases c u s) as (res' & w & evs & E & _ & Hb).
  rewrite E in H. inversion H; subst. apply Hb. discriminate.
Qed.

(** ** Facts about the retry loop *)

Lemma fetchLoop_stop (c : Crawl) (u : string) (k : nat) acc s b retry err s1 :
  doReq c http.MethodGet u None (Some (headers c)) s
  = ((b, retry, err), s1) ->
  isNil err || negb retry = true ->
  fetchLoop c u (S k) acc s = ((b, err), s1).
Proof.
  intros Hd Hstop. cbn [fetchLoop]. unfold bind. rewrite Hd.
  now rewrite Hstop.
Qed.

Lemma fetchLoop_retry (c : Crawl) (u : string) (k : nat) acc s b e s1 :
  doReq c http.MethodGet u None (Some (headers c)) s
  = ((b, true, Some e), s1) ->
  fetchLoop c u (S k) acc s = fetchLoop c u k (b, Some e) s1.
Proof.
  intros Hd. cbn [fetchLoop]. unfold bind. rewrite Hd. reflexivity.
Qed.

Lemma fetchLoop_transient (c : Crawl) (u : string) s es s1 :
  Transient c u s es s1 ->
  forall k acc,
    fetchLoop c u (List.length es + k) acc s
    = fetchLoop c u k (afterFailures es acc) s1.
Proof.
  induction 1 as [s|s s1 s2 b e es Hd HT IH]; intros k acc.
  - reflexivity.
  - cbn [List.length Nat.add].
    rewrite (fetchLoop_retry c u _ acc s b e s1 Hd), IH.
    rewrite (doReq_error_body c u s s1 b true e Hd).
    destruct es; reflexivity.
Qed.

Lemma Transient_attempts (c : Crawl) (u : string) s es s1 :
  Transient c u s es s1 ->
  attempts (trace s1) = (attempts (trace s) + List.length es)%nat.
Proof.
  induction 1 as [s|s s1 s2 b e es Hd HT IH]; cbn [List.length]; [lia|].
  rewrite IH, (doReq_attempts c u s s1 _ Hd). lia.
Qed.

Lemma sentRequest_eq (c : Crawl) (pu : http.URL) :
  sentRequest c pu
  = http.mkRequest http.MethodGet (http.withRawQuery pu "") (headers c) None.
Proof.
  unfold sentRequest, prepare.
  change (isPostOrPut http.MethodGet) with false.
  change (isGetOrDelete http.MethodGet) with true.
  cbn. now destruct (String.eqb _ _).
Qed.

Lemma AttemptTrace_requests (c : Crawl) (u : string) (evs : list Event) :
  AttemptTrace c u evs -> requestsFor c u evs.
Proof.
  intros [line|pu line Hp|pu line Hp]; unfold requestsFor;
    repeat constructor; intros req E; try discriminate;
    inversion E; subst; eauto.
Qed.

Lemma fetchLoop_trace (c : Crawl) (u : string) (k : nat) :
  forall acc s, exists res w evs,
    fetchLoop c u k acc s = (res, mkSt w (trace s ++ evs))
    /\ requestsFor c u evs.
Proof.
  induction k as [|k IH]; intros acc s.
  - exists acc, (world s), []. cbn. rewrite app_nil_r.
    destruct s; split; [reflexivity | constructor].
  - cbn [fetchLoop]. unfold bind.
    destruct (doReq_cases c u s) as ([[b retry] err] & w & evs & E & HT & _).
    rewrite E.
    destruct (isNil err || negb retry).
    + do 3 eexists; split; [reflexivity|].
      now apply AttemptTrace_requests.
    + destruct (IH (b, err) (mkSt w (trace s ++ evs)))
        as (res & w' & evs' & E' & HR).
      rewrite E'. cbn [trace]. rewrite <- app_assoc.
      do 3 eexists; split; [reflexivity|].
      apply Forall_app; split; [now apply AttemptTrace_requests | exact HR].
Qed.

Lemma fetch_unfold (c : Crawl) (u : string) (s : St) body err s1 :
  fetchLoop c u (Z.to_nat (Attempts (opt c))) (None, None) s
  = ((body, err), s1) ->
  fetch c u s
  = (match err with Some e => (None, Some e) | None => (body, None) end, s1).
Proof.
  intros H. unfold fetch, bind. rewrite H. now destruct err.
Qed.

(** ** The fetch engine *)

(** C4.  An attempt that is answered with a status other than 200 ends the
    retry loop, at whatever iteration it happens and however many
    attempts are left: [fetch] makes that one attempt (one exchange, one
    log line) and returns the error "<url> returned <status>". *)
Theorem non200_is_terminal (c : Crawl) (u : string) (s : St)
        (pu : http.URL) (r : http.Response) (w : World) :
  1 <= Attempts (opt c) ->
  url_Parse u = Ok pu ->
  hc_Do (sentRequest c pu) (world s) = (Ok r, w) ->
  http.StatusCode r <> 200 ->
  let e := u ++ " returned " ++ fmt_d (http.StatusCode r) in
  let s1 := mkSt w (trace s ++
                      [EvDo (sentRequest c pu); EvDrain;
                       EvLog (logLine http.MethodGet u (Some e))]) in
  doReq c http.MethodGet u None (Some (headers c)) s
  = ((None, false, Some e), s1)
  /\ (forall k acc, fetchLoop c u (S k) acc s = ((None, Some e), s1))
  /\ fetch c u s = ((None, Some e), s1)
  /\ attempts (trace s1) = S (attempts (trace s))
  /\ exchanges (trace s1) = S (exchanges (trace s)).
Proof.
  intros Hatt Hp Hd Hst e s1.
  assert (Hr : readResponse c u r = (None, false, Some e)).
  { unfold readResponse.
    assert (E : (http.StatusCode r =? http.StatusOK) = false)
      by (apply Z.eqb_neq; exact Hst).
    now rewrite E. }
  assert (Hdo : doReq c http.MethodGet u None (Some (headers c)) s
                = ((None, false, Some e), s1)).
  { rewrite (doReq_response c u s pu r w Hp Hd), Hr. reflexivity. }
  assert (Hloop : forall k acc,
             fetchLoop c u (S k) acc s = ((None, Some e), s1)).
  { intros k acc.
    apply (fetchLoop_stop c u k acc s None false (Some e) s1 Hdo).
    reflexivity. }
  repeat split; try assumption.
  - destruct (Z.to_nat (Attempts (opt c))) as [|k] eqn:Ek; [lia|].
    apply (fetch_unfold c u s None (Some e) s1). rewrite Ek. apply Hloop.
  - subst s1. cbn [trace]. rewrite attempts_app. cbn. lia.
  - subst s1. cbn [trace]. rewrite exchanges_app. cbn. lia.
Qed.

(** C5.  With [Attempts >= 1], after the retriable failures [es] of the
    first attempts: an attempt that succeeds ends the loop with its body,
    an attempt that fails for good ends it with its error, and when the
    failures are as many as [Attempts] the loop ends with the error of the
    last one.  The attempts made are the failures plus the one that ended
    the loop, so [N] failures then a success take [N + 1] attempts when
    [Attempts = N + 1], and [Attempts = N] fails after [N] attempts. *)
Theorem fetch_retry_bound (c : Crawl) (u : string) (s sN : St)
        (es : list error) :
  1 <= Attempts (opt c) ->
  Transient c u s es sN ->
  let N := List.length es in
  (forall body retry s',
      Z.of_nat N < Attempts (opt c) ->
      doReq c http.MethodGet u None (Some (headers c)) sN
      = ((body, retry, None), s') ->
      fetch c u s = ((body, None), s')
      /\ attempts (trace s') = (attempts (trace s) + N + 1)%nat)
  /\ (forall b e s',
      Z.of_nat N < Attempts (opt c) ->
      doReq c http.MethodGet u None (Some (headers c)) sN
      = ((b, false, Some e), s') ->
      fetch c u s = ((None, Some e), s')
      /\ attempts (trace s') = (attempts (trace s) + N + 1)%nat)
  /\ (Attempts (opt c) = Z.of_nat N ->
      fetch c u s = ((None, Some (last es "")), sN)
      /\ attempts (trace sN) = (attempts (trace s) + N)%nat).
Proof.
  intros Hatt HT N.
  pose proof (Transient_attempts c u s es sN HT) as Hcount.
  pose proof (fetchLoop_transient c u s es sN HT) as Hloop.
  assert (Hk : forall n : nat, Z.of_nat N < Attempts (opt c) ->
             Z.to_nat (Attempts (opt c))
             = (N + S (Z.to_nat (Attempts (opt c)) - S N))%nat) by lia.
  split; [|split].
  - intros body retry s' Hlt Hd. split.
    + apply (fetch_unfold c u s body None s').
      rewrite (Hk O Hlt), Hloop.
      apply (fetchLoop_stop c u _ _ sN body retry None s' Hd). reflexivity.
    + rewrite (doReq_attempts c u sN s' _ Hd). lia.
  - intros b e s' Hlt Hd. split.
    + apply (fetch_unfold c u s b (Some e) s').
      rewrite (Hk O Hlt), Hloop.
      apply (fetchLoop_stop c u _ _ sN b false (Some e) s' Hd). reflexivity.
    + rewrite (doReq_attempts c u sN s' _ Hd). lia.
  - intros Heq. split; [|exact Hcount].
    assert (Ek : Z.to_nat (Attempts (opt c)) = (N + 0)%nat) by lia.
    destruct es as [|e0 es']; [cbn in N; lia|].
    apply (fetch_unfold c u s None (Some (last (e0 :: es') "")) sN).
    rewrite Ek, Hloop. reflexivity.
Qed.

(** What [io.ReadAll] gets through the limited reader: the first [n] bytes
    in every case, and the end of the underlying reader when it is met. *)
Lemma ReadAll_LimitReader (r : http.Reader) (n : Z) :
  http.ReadAll (http.LimitReader r n)
  = (firstn (Z.to_nat n) (http.rdata r),
     if http.endMet r n then http.rend r else None).
Proof.
  unfold http.ReadAll, http.LimitReader.
  destruct (http.endMet r n) eqn:E; [|reflexivity].
  rewrite firstn_all2; [reflexivity|].
  unfold http.endMet in E. apply orb_true_iff in E.
  destruct E as [E|E].
  - apply Z.ltb_lt in E. lia.
  - apply andb_true_iff in E. destruct E as [E _].
    apply andb_true_iff in E. destruct E as [E _].
    apply Z.eqb_eq in E. lia.
Qed.

Lemma endMet_over (r : http.Reader) (n : Z) :
  n < Z.of_nat (List.length (http.rdata r)) -> http.endMet r n = false.
Proof.
  intros H. unfold http.endMet.
  assert (E1 : (Z.of_nat (List.length (http.rdata r)) <? n) = false)
    by (apply Z.ltb_ge; lia).
  assert (E2 : (Z.of_nat (List.length (http.rdata r)) =? n) = false)
    by (apply Z.eqb_neq; lia).
  now rewrite E1, E2.
Qed.

Lemma readResponse_ok (c : Crawl) (u : string) (r : http.Response)
      (b : list byte) (retry : bool) :
  readResponse c u r = (Some b, retry, None) ->
  http.StatusCode r = 200
  /\ b = firstn (Z.to_nat (MaxBytes (opt c))) (http.rdata (http.RespBody r)).
Proof.
  unfold readResponse. rewrite ReadAll_LimitReader.
  destruct (http.StatusCode r =? http.StatusOK) eqn:Est; cbn [negb];
    [|discriminate].
  apply Z.eqb_eq in Est.
  destruct (if http.endMet (http.RespBody r) (MaxBytes (opt c))
            then http.rend (http.RespBody r) else None); [discriminate|].
  intros H; inversion H; subst. now split.
Qed.

(** C6.  An attempt answered with status 200 reads the body through a
    reader limited to [MaxBytes]: whenever it yields a body, that body is
    the first [MaxBytes] bytes of what the server sent; and when the server
    sent more than [MaxBytes] bytes the attempt succeeds, with no error,
    on exactly the first [MaxBytes] of them, whatever comes after. *)
Theorem body_truncated_to_MaxBytes (c : Crawl) (u : string) (s : St)
        (pu : http.URL) (r : http.Response) (w : World) :
  url_Parse u = Ok pu ->
  hc_Do (sentRequest c pu) (world s) = (Ok r, w) ->
  http.StatusCode r = 200 ->
  let sent := http.rdata (http.RespBody r) in
  let cut := firstn (Z.to_nat (MaxBytes (opt c))) sent in
  (forall b retry,
      fst (doReq c http.MethodGet u None (Some (headers c)) s)
      = (Some b, retry, None) -> b = cut)
  /\ (MaxBytes (opt c) < Z.of_nat (List.length sent) ->
      fst (doReq c http.MethodGet u None (Some (headers c)) s)
      = (Some cut, false, None)
      /\ (0 <= MaxBytes (opt c) ->
          Z.of_nat (List.length cut) = MaxBytes (opt c))
      /\ (1 <= Attempts (opt c) -> fst (fetch c u s) = (Some cut, None))).
Proof.
  intros Hp Hd Hst sent cut.
  rewrite (doReq_response c u s pu r w Hp Hd). cbn [fst].
  split.
  - intros b retry H. now destruct (readResponse_ok c u r b retry H).
  - intros Hlong.
    assert (Hr : readResponse c u r = (Some cut, false, None)).
    { unfold readResponse. rewrite ReadAll_LimitReader.
      rewrite Hst. change (negb (200 =? http.StatusOK)) with false.
      cbv iota.
      rewrite (endMet_over (http.RespBody r) (MaxBytes (opt c)) Hlong).
      reflexivity. }
    split; [exact Hr | split].
    + intros Hpos. subst cut. rewrite length_firstn. lia.
    + intros Hatt.
      destruct (Z.to_nat (Attempts (opt c))) as [|k] eqn:Ek; [lia|].
      rewrite (fetch_unfold c u s (Some cut) None
                 (mkSt w (trace s ++
                    [EvDo (sentRequest c pu); EvDrain;
                     EvLog (logLine http.MethodGet u None)]))).
      * reflexivity.
      * rewrite Ek. apply fetchLoop_stop with (retry := false).
        -- rewrite (doReq_response c u s pu r w Hp Hd), Hr. reflexivity.
        -- reflexivity.
Qed.

(** C9.  With [Attempts] zero or negative the loop body never runs:
    [fetch] returns the nil slice and the nil error without touching the
    world, and [FetchManifest] goes on to parse the nil slice. *)
Theorem fetch_without_attempts (c : Crawl) (u : string) (s : St) :
  Attempts (opt c) <= 0 ->
  fetch c u s = ((None, None), s)
  /\ FetchManifest c u s = ParseManifest c None u true s.
Proof.
  intros Hatt.
  assert (Hf : fetch c u s = ((None, None), s)).
  { apply (fetch_unfold c u s None None s).
    replace (Z.to_nat (Attempts (opt c))) with O by lia. reflexivity. }
  split; [exact Hf|].
  unfold FetchManifest, bind. now rewrite Hf.
Qed.

(** What an attempt on a URL that parses does first: it hands the client
    the parsed URL with an empty query, and goes on from the client's
    answer. *)
Lemma doReq_sends (c : Crawl) (u : string) (s : St) (pu : http.URL) :
  url_Parse u = Ok pu ->
  exists evs,
    doReq c http.MethodGet u None (Some (headers c)) s
    = (match fst (hc_Do (sentRequest c pu) (world s)) with
       | Ok r => readResponse c u r
       | Err e => (None, true, Some e)
       end,
       mkSt (snd (hc_Do (sentRequest c pu) (world s)))
         (trace s ++ EvDo (sentRequest c pu) :: evs)).
Proof.
  intros Hp.
  destruct (hc_Do (sentRequest c pu) (world s)) as [[r|e] w] eqn:Hd.
  - rewrite (doReq_response c u s pu r w Hp Hd). cbn [fst snd]. eauto.
  - rewrite (doReq_transport_error c u s pu e w Hp Hd). cbn [fst snd]. eauto.
Qed.

(** C10.  For a URL that parses, [doReq] hands the client a GET request
    for the parsed URL with its query string overwritten by the empty
    string (the other parts of the URL as parsed), whatever query the URL
    had, and goes on from the client's answer to that request; with an
    attempt allowed this request is the first thing [fetch] does.  And
    every request [fetch] hands to the client, at any attempt, is that
    one. *)
Theorem query_string_dropped (c : Crawl) (u : string) (s : St) :
  (forall pu, url_Parse u = Ok pu ->
     let req := http.mkRequest http.MethodGet (http.withRawQuery pu "")
                  (headers c) None in
     http.RawQuery (http.ReqURL req) = ""
     /\ (exists evs,
           doReq c http.MethodGet u None (Some (headers c)) s
           = (match fst (hc_Do req (world s)) with
              | Ok r => readResponse c u r
              | Err e => (None, true, Some e)
              end,
              mkSt (snd (hc_Do req (world s)))
                (trace s ++ EvDo req :: evs)))
     /\ (1 <= Attempts (opt c) ->
         exists res w evs,
           fetch c u s = (res, mkSt w (trace s ++ EvDo req :: evs))))
  /\ exists res w evs,
       fetch c u s = (res, mkSt w (trace s ++ evs))
       /\ Forall (fun ev => forall req, ev = EvDo req ->
                    http.RawQuery (http.ReqURL req) = ""
                    /\ http.Method req = http.MethodGet
                    /\ exists pu, url_Parse u = Ok pu
                         /\ http.ReqURL req = http.withRawQuery pu "") evs.
Proof.
  split.
  - intros pu Hp req. subst req. rewrite <- (sentRequest_eq c pu).
    destruct (doReq_sends c u s pu Hp) as [evs0 Hd].
    split; [rewrite sentRequest_eq; reflexivity|].
    split; [exists evs0; exact Hd|].
    intros Hatt.
    destruct (Z.to_nat (Attempts (opt c))) as [|k] eqn:Ek; [lia|].
    unfold fetch, bind. rewrite Ek. cbn [fetchLoop]. unfold bind.
    rewrite Hd.
    destruct (match fst (hc_Do (sentRequest c pu) (world s)) with
              | Ok r => readResponse c u r
              | Err e => (None, true, Some e)
              end) as [[b0 retry] err].
    destruct (isNil err || negb retry).
    + unfold ret. destruct err; eauto.
    + destruct (fetchLoop_trace c u k (b0, err)
                  (mkSt (snd (hc_Do (sentRequest c pu) (world s)))
                     (trace s ++ EvDo (sentRequest c pu) :: evs0)))
        as ([body err'] & w & evs & E & _).
      rewrite E. cbn [trace]. rewrite <- app_assoc. cbn [app].
      unfold ret. destruct err'; eauto.
  - destruct (fetchLoop_trace c u (Z.to_nat (Attempts (opt c))) (None, None) s)
      as ([body err] & w & evs & E & HR).
    rewrite (fetch_unfold c u s body err _ E).
    do 3 eexists; split; [reflexivity|].
    unfold requestsFor in HR. rewrite Forall_forall in HR |- *.
    intros ev Hin req Hev.
    destruct (HR ev Hin req Hev) as (pu & Hp & ->).
    rewrite sentRequest_eq. cbn. eauto.
Qed.

(** ** The provenance verifier *)

Lemma CheckProvenance_fetched (c : Crawl) (u : v1.URL) (manifestURL : string)
      (s s1 : St) (body : ByteSlice) :
  v1.WellKnown u <> "" ->
  fetch c (v1.WellKnown u) s = ((body, None), s1) ->
  CheckProvenance c u manifestURL s
  = (fst (scanLines (bytes_of manifestURL) manifestURL
            (bytes_Split (contents body) newline) 0), s1).
Proof.
  intros Hwk Hf. unfold CheckProvenance.
  destruct (String.eqb (v1.WellKnown u) "") eqn:E.
  - apply String.eqb_eq in E. contradiction.
  - unfold bind. rewrite Hf. reflexivity.
Qed.

(** C8.  A reference without a disclosure list passes, and the check
    leaves the world and the trace as they were: nothing is fetched. *)
Theorem empty_WellKnown_passes (c : Crawl) (u : v1.URL)
        (manifestURL : string) (s : St) :
  v1.WellKnown u = "" ->
  CheckProvenance c u manifestURL s = (None, s).
Proof.
  intros Hwk. unfold CheckProvenance. rewrite Hwk. reflexivity.
Qed.

(** C1, as the code has it.  After a successful fetch of the disclosure
    list the check fails with the too-many-lines error exactly when the
    list has a line of index 101 (a 102nd line) and none of its first 102
    lines is the manifest URL; the test [n > 100] on the index comes after
    the comparison, so the 102nd line is compared too and the scan stops
    after 102 comparisons.  For such a list the error is not the
    not-found one. *)
Theorem too_many_lines_at_index_101 (c : Crawl) (u : v1.URL)
        (manifestURL : string) (s s1 : St) (body : ByteSlice) :
  v1.WellKnown u <> "" ->
  fetch c (v1.WellKnown u) s = ((body, None), s1) ->
  let lines := bytes_Split (contents body) newline in
  let ub := bytes_of manifestURL in
  (CheckProvenance c u manifestURL s = (Some errTooManyLines, s1)
   <-> (102 <= List.length lines)%nat /\ ~ In ub (firstn 102 lines))
  /\ ((102 <= List.length lines)%nat -> ~ In ub (firstn 102 lines) ->
      snd (scanLines ub manifestURL lines 0) = 102%nat
      /\ CheckProvenance c u manifestURL s
         <> (Some (errNotFound manifestURL), s1)).
Proof.
  intros Hwk Hf lines ub.
  rewrite (CheckProvenance_fetched c u manifestURL s s1 body Hwk Hf).
  fold lines ub.
  assert (Hcap : (102 <= List.length lines)%nat ->
                 ~ In ub (firstn 102 lines) ->
                 scanLines ub manifestURL lines 0
                 = (Some errTooManyLines, 102%nat)).
  { intros Hlen Hnot.
    apply (scan_cap manifestURL 101 lines 0); [reflexivity | lia | exact Hnot]. }
  split; [split|].
  - intros H.
    destruct (scanLines ub manifestURL lines 0) as [r k] eqn:E.
    cbn [fst] in H. inversion H; subst r.
    destruct (scan_cap_inv manifestURL lines 0 101 k eq_refl E)
      as (Hl & Hn & _).
    split; [lia | exact Hn].
  - intros [Hlen Hnot]. now rewrite (Hcap Hlen Hnot).
  - intros Hlen Hnot. rewrite (Hcap Hlen Hnot). cbn [fst snd].
    split; [reflexivity|].
    intros H. inversion H.
Qed.

(** C2.  After a successful fetch the body is cut into lines at the
    newline bytes (joining the lines with newlines gives the body back and
    no line holds a newline); a line matches only when it is, byte for
    byte, the manifest URL (the URL followed by a space does not match);
    the check passes at the first line that matches, whatever follows it;
    and a list that is scanned to its end without a match (every list
    within the cap of 100 lines is) gives the not-found error, which names
    the manifest URL. *)
Theorem provenance_scan_exact (c : Crawl) (u : v1.URL)
        (manifestURL : string) (s s1 : St) (body : ByteSlice) :
  v1.WellKnown u <> "" ->
  fetch c (v1.WellKnown u) s = ((body, None), s1) ->
  let lines := bytes_Split (contents body) newline in
  let ub := bytes_of manifestURL in
  (bytes_Join lines newline = contents body
   /\ Forall (fun l => ~ In newline l) lines)
  /\ (forall l, bytes_Equal ub l = true <-> l = ub)
  /\ bytes_Equal ub (ub ++ [x20])%list = false
  /\ (forall pre post,
        lines = (pre ++ ub :: post)%list -> ~ In ub pre ->
        (List.length pre <= 101)%nat ->
        CheckProvenance c u manifestURL s = (None, s1))
  /\ (~ In ub lines -> (List.length lines <= 101)%nat ->
      CheckProvenance c u manifestURL s
      = (Some ("manifest URL " ++ manifestURL
               ++ " was not found in the .well-known list"), s1)).
Proof.
  intros Hwk Hf lines ub.
  rewrite (CheckProvenance_fetched c u manifestURL s s1 body Hwk Hf).
  fold lines ub.
  split; [split|split; [|split; [|split]]].
  - apply bytes_Join_Split.
  - apply bytes_Split_no_sep.
  - intros l. rewrite bytes_Equal_spec. split; congruence.
  - apply bytes_Equal_false. intros E.
    apply (f_equal (@List.length byte)) in E.
    rewrite length_app in E. cbn in E. lia.
  - intros pre post El Hnot Hlen. subst lines ub. rewrite El.
    rewrite (scan_hit manifestURL pre post 0 Hnot); [reflexivity | lia].
  - intros Hnot Hlen. subst lines ub.
    rewrite (scan_miss manifestURL _ 0 Hnot); [reflexivity | lia].
Qed.

(** ** The orchestrator *)

Lemma checkProjects_checkAll (c : Crawl) (ps : list v1.Project)
      (manifestURL : string) (s : St) :
  checkProjects c ps manifestURL s
  = checkAll c (flat_map (fun o => [v1.WebpageURL o; v1.RepositoryUrl o]) ps)
      manifestURL s.
Proof.
  revert s; induction ps as [|o ps IH]; intros s; [reflexivity|].
  cbn [checkProjects flat_map app checkAll]. unfold bind.
  destruct (CheckProvenance c (v1.WebpageURL o) manifestURL s)
    as [[e|] s1]; [reflexivity|].
  destruct (CheckProvenance c (v1.RepositoryUrl o) manifestURL s1)
    as [[e|] s2]; [reflexivity|].
  apply IH.
Qed.

(** The provenance phase of [ParseManifest] on the validated manifest. *)
Lemma ParseManifest_validated (c : Crawl) (b : ByteSlice)
      (manifestURL : string) (cp : bool) (s : St) (m0 v : v1.Manifest) :
  UnmarshalJSON b = (m0, None) ->
  Validate (sc c) (v1.stamp m0 manifestURL b) = (v, None) ->
  ParseManifest c b manifestURL cp s
  = if cp
    then let (e, s') := checkAll c (provenanceRefs v) manifestURL s in
         ((v, e), s')
    else ((v, None), s).
Proof.
  intros Hu Hv. unfold ParseManifest. rewrite Hu, Hv.
  destruct cp; [|reflexivity].
  unfold provenanceRefs. cbn [checkAll]. unfold bind.
  destruct (CheckProvenance c _ manifestURL s) as [[e|] s1]; [reflexivity|].
  rewrite checkProjects_checkAll.
  destruct (checkAll c _ manifestURL s1) as [[e|] s2]; reflexivity.
Qed.

Lemma checkAll_pass (c : Crawl) (manifestURL : string) us s s' :
  Passed c manifestURL us s s' ->
  checkAll c us manifestURL s = (None, s').
Proof.
  induction 1 as [s|u us s s1 s2 Hc HP IH]; [reflexivity|].
  cbn [checkAll]. unfold bind. now rewrite Hc.
Qed.

Lemma checkAll_fail (c : Crawl) (manifestURL : string) pre s s1 :
  Passed c manifestURL pre s s1 ->
  forall u post e s2,
    CheckProvenance c u manifestURL s1 = (Some e, s2) ->
    checkAll c (pre ++ u :: post) manifestURL s = (Some e, s2).
Proof.
  induction 1 as [s|u0 us s s1 s2 Hc HP IH]; intros u post e s3 Hfail.
  - cbn [app checkAll]. unfold bind. now rewrite Hfail.
  - cbn [app checkAll]. unfold bind. rewrite Hc. now apply IH.
Qed.

(** Either every check passes or there is a first one that fails. *)
Lemma checks_pass_or_fail (c : Crawl) (manifestURL : string) us :
  forall s,
    (exists s', Passed c manifestURL us s s')
    \/ (exists pre u post e s1 s2,
           us = (pre ++ u :: post)%list
           /\ Passed c manifestURL pre s s1
           /\ CheckProvenance c u manifestURL s1 = (Some e, s2)).
Proof.
  induction us as [|u us IH]; intros s.
  - left. exists s. constructor.
  - destruct (CheckProvenance c u manifestURL s) as [[e|] s1] eqn:Hc.
    + right. exists [], u, us, e, s, s1.
      repeat split; [constructor | exact Hc].
    + destruct (IH s1) as [[s' HP]|(pre & u' & post & e & s2 & s3 & E & HP & Hf)].
      * left. exists s'. econstructor; eassumption.
      * right. exists (u :: pre), u', post, e, s2, s3.
        repeat split; [now rewrite E | econstructor; eassumption | exact Hf].
Qed.

(** C7.  When the body decodes, the validator is given the decoded
    manifest with [URL] set to the source URL and [Body] to the input
    slice, the rest as decoded; what the validator returns is what
    [ParseManifest] returns: with the validator's error, unchanged and at
    once, and without error in place of the decoded manifest, in every
    outcome of the provenance phase. *)
Theorem validator_manifest_returned (c : Crawl) (b : ByteSlice)
        (manifestURL : string) (cp : bool) (s : St) (m0 : v1.Manifest) :
  UnmarshalJSON b = (m0, None) ->
  let stamped := v1.stamp m0 manifestURL b in
  (v1.ManifestURL stamped = manifestURL
   /\ v1.Body stamped = b
   /\ v1.TheEntity stamped = v1.TheEntity m0
   /\ v1.Projects stamped = v1.Projects m0)
  /\ (forall v e,
        Validate (sc c) stamped = (v, Some e) ->
        ParseManifest c b manifestURL cp s = ((v, Some e), s))
  /\ (forall v,
        Validate (sc c) stamped = (v, None) ->
        fst (fst (ParseManifest c b manifestURL cp s)) = v
        /\ (cp = false ->
            ParseManifest c b manifestURL cp s = ((v, None), s))).
Proof.
  intros Hu stamped. split; [repeat split|split].
  - intros v e Hv. unfold ParseManifest. rewrite Hu. fold stamped.
    now rewrite Hv.
  - intros v Hv.
    rewrite (ParseManifest_validated c b manifestURL cp s m0 v Hu Hv).
    destruct cp.
    + destruct (checkAll c (provenanceRefs v) manifestURL s) as [e s'].
      split; [reflexivity | discriminate].
    + split; reflexivity.
Qed.

(** C3.  With [checkProvenance] set, on the validated manifest [v]: the
    checks run on the entity's webpage, then project by project on the
    webpage and then the repository.  When the checks of the references
    before [u] pass and the check of [u] fails, [ParseManifest] returns
    that error with [v] and the state the failed check left: nothing is
    checked or fetched for the references after [u].  When all pass, [v]
    is returned without error.  One of the two always happens. *)
Theorem provenance_document_order (c : Crawl) (b : ByteSlice)
        (manifestURL : string) (s : St) (m0 v : v1.Manifest) :
  UnmarshalJSON b = (m0, None) ->
  Validate (sc c) (v1.stamp m0 manifestURL b) = (v, None) ->
  provenanceRefs v
  = (v1.EntityWebpageURL (v1.TheEntity v)
     :: flat_map (fun o => [v1.WebpageURL o; v1.RepositoryUrl o])
          (v1.Projects v))%list
  /\ (forall pre u post e s1 s2,
        provenanceRefs v = (pre ++ u :: post)%list ->
        Passed c manifestURL pre s s1 ->
        CheckProvenance c u manifestURL s1 = (Some e, s2) ->
        ParseManifest c b manifestURL true s = ((v, Some e), s2))
  /\ (forall s',
        Passed c manifestURL (provenanceRefs v) s s' ->
        ParseManifest c b manifestURL true s = ((v, None), s'))
  /\ ((exists s', Passed c manifestURL (provenanceRefs v) s s')
      \/ (exists pre u post e s1 s2,
             provenanceRefs v = (pre ++ u :: post)%list
             /\ Passed c manifestURL pre s s1
             /\ CheckProvenance c u manifestURL s1 = (Some e, s2))).
Proof.
  intros Hu Hv.
  pose proof (ParseManifest_validated c b manifestURL true s m0 v Hu Hv)
    as HP. cbv iota in HP.
  split; [reflexivity | split; [|split]].
  - intros pre u post e s1 s2 E Hpass Hfail.
    rewrite HP, E,
      (checkAll_fail c manifestURL pre s s1 Hpass u post e s2 Hfail).
    reflexivity.
  - intros s' Hpass.
    rewrite HP, (checkAll_pass c manifestURL _ s s' Hpass). reflexivity.
  - apply checks_pass_or_fail.
Qed.

(** ** More on the scan *)

Section ScanReach.

Variable manifestURL : string.

(** The scan passes when one of the lines it may compare is the URL. *)
Lemma scan_pass (j : nat) (lines : list (list byte)) (n : Z) :
  n = 101 - Z.of_nat j ->
  In (bytes_of manifestURL) (firstn (S j) lines) ->
  fst (scanLines (bytes_of manifestURL) manifestURL lines n) = None.
Proof.
  revert lines n; induction j as [|j IH]; intros [|b lines] n Hn Hin;
    try (now destruct Hin); cbn [scanLines].
  - destruct (bytes_Equal (bytes_of manifestURL) b) eqn:Hb; [reflexivity|].
    apply bytes_Equal_false in Hb. cbn in Hin.
    destruct Hin as [E|[]]. congruence.
  - destruct (bytes_Equal (bytes_of manifestURL) b) eqn:Hb; [reflexivity|].
    apply bytes_Equal_false in Hb.
    change (firstn (S (S j)) (b :: lines))
      with (b :: firstn (S j) lines) in Hin.
    destruct Hin as [E|Hin]; [congruence|].
    assert (H100 : (100 <? n) = false) by (apply Z.ltb_ge; lia).
    rewrite H100.
    specialize (IH lines (n + 1) ltac:(lia) Hin).
    destruct (scanLines (bytes_of manifestURL) manifestURL lines (n + 1)).
    exact IH.
Qed.

(** It passes only then. *)
Lemma scan_pass_inv (j : nat) (lines : list (list byte)) (n : Z) :
  n = 101 - Z.of_nat j ->
  fst (scanLines (bytes_of manifestURL) manifestURL lines n) = None ->
  In (bytes_of manifestURL) (firstn (S j) lines).
Proof.
  revert j n; induction lines as [|b lines IH]; intros j n Hn;
    cbn [scanLines].
  - discriminate.
  - destruct (bytes_Equal (bytes_of manifestURL) b) eqn:Hb.
    + apply bytes_Equal_spec in Hb. intros _. now left.
    + destruct (100 <? n) eqn:H100; [discriminate|].
      apply Z.ltb_ge in H100. destruct j as [|j]; [simpl in Hn; lia|].
      destruct (scanLines (bytes_of manifestURL) manifestURL lines (n + 1))
        as [r k] eqn:E.
      cbn [fst]. intros Hr.
      change (firstn (S (S j)) (b :: lines))
        with (b :: firstn (S j) lines).
      right. apply (IH j (n + 1)); [lia|]. now rewrite E.
Qed.

(** Lines after the ones the scan may compare do not count, and the scan
    compares no more lines than that. *)
Lemma scan_window (j : nat) (lines : list (list byte)) (n : Z) :
  n = 101 - Z.of_nat j ->
  fst (scanLines (bytes_of manifestURL) manifestURL lines n)
  = fst (scanLines (bytes_of manifestURL) manifestURL (firstn (S j) lines) n)
  /\ (snd (scanLines (bytes_of manifestURL) manifestURL lines n) <= S j)%nat.
Proof.
  revert lines n; induction j as [|j IH]; intros [|b lines] n Hn.
  - cbn. split; [reflexivity | lia].
  - cbn [firstn scanLines].
    destruct (bytes_Equal (bytes_of manifestURL) b);
      [cbn; split; [reflexivity | lia]|].
    assert (H100 : (100 <? n) = true) by (apply Z.ltb_lt; lia).
    rewrite H100. cbn. split; [reflexivity | lia].
  - cbn. split; [reflexivity | lia].
  - change (firstn (S (S j)) (b :: lines)) with (b :: firstn (S j) lines).
    cbn [scanLines].
    destruct (bytes_Equal (bytes_of manifestURL) b);
      [cbn; split; [reflexivity | lia]|].
    destruct (100 <? n); [cbn; split; [reflexivity | lia]|].
    destruct (IH lines (n + 1) ltac:(lia)) as [Hf Hs].
    destruct (scanLines (bytes_of manifestURL) manifestURL lines (n + 1))
      as [r k].
    destruct (scanLines (bytes_of manifestURL) manifestURL
                (firstn (S j) lines) (n + 1)) as [r' k'].
    cbn [fst snd] in *. split; [exact Hf | lia].
Qed.

End ScanReach.

(** X16.  The outcome of the scan of a disclosure list is the outcome of the
    scan of its first 102 lines, and the scan never compares more than 102
    lines, however long the list. *)
Theorem scan_reads_102_lines_at_most (manifestURL : string)
        (lines : list (list byte)) :
  fst (scanLines (bytes_of manifestURL) manifestURL lines 0)
  = fst (scanLines (bytes_of manifestURL) manifestURL (firstn 102 lines) 0)
  /\ (snd (scanLines (bytes_of manifestURL) manifestURL lines 0) <= 102)%nat.
Proof. apply (scan_window manifestURL 101 lines 0). reflexivity. Qed.

(** ** More on the fetch engine *)

Lemma drains_app (t1 t2 : list Event) :
  drains (t1 ++ t2) = (drains t1 + drains t2)%nat.
Proof. unfold drains. now rewrite filter_app, length_app. Qed.

Lemma AttemptTrace_drains (c : Crawl) (u : string) (evs : list Event) :
  AttemptTrace c u evs -> (drains evs <= exchanges evs)%nat.
Proof. intros []; cbn; lia. Qed.

Lemma readResponse_wellFormed (c : Crawl) (u : string) (r : http.Response) :
  wellFormedResult c (fst (fst (readResponse c u r)), snd (readResponse c u r)).
Proof.
  unfold wellFormedResult, readResponse. rewrite ReadAll_LimitReader.
  destruct (negb (http.StatusCode r =? http.StatusOK)); [reflexivity|].
  destruct (if http.endMet (http.RespBody r) (MaxBytes (opt c))
            then http.rend (http.RespBody r) else None); cbn;
    [reflexivity|].
  eexists; split; [reflexivity|]. rewrite length_firstn. lia.
Qed.

Lemma doReq_wellFormed (c : Crawl) (u : string) (s s1 : St) b retry err :
  doReq c http.MethodGet u None (Some (headers c)) s
  = ((b, retry, err), s1) ->
  wellFormedResult c (b, err).
Proof.
  intros H.
  destruct (url_Parse u) as [pu|e] eqn:Hp.
  - destruct (hc_Do (sentRequest c pu) (world s)) as [[r|e] w] eqn:Hd.
    + rewrite (doReq_response c u s pu r w Hp Hd) in H.
      pose proof (readResponse_wellFormed c u r) as HW.
      destruct (readResponse c u r) as [[b' retry'] err'].
      inversion H; subst. exact HW.
    + rewrite (doReq_transport_error c u s pu e w Hp Hd) in H.
      inversion H; subst. reflexivity.
  - rewrite (doReq_parse_error c u s e Hp) in H.
    inversion H; subst. reflexivity.
Qed.

(** The line an attempt logs is the last event of its trace. *)
Lemma doReq_last_log (c : Crawl) (u : string) (s s1 : St) b retry err :
  doReq c http.MethodGet u None (Some (headers c)) s
  = ((b, retry, err), s1) ->
  exists t, trace s1 = (t ++ [EvLog (logLine http.MethodGet u err)])%list.
Proof.
  unfold doReq, bind, ret, emit.
  destruct (doReq_run c http.MethodGet u None (Some (headers c)) s)
    as [[[b' retry'] err'] s'].
  intros H; inversion H; subst. cbn [trace snd]. eauto.
Qed.

(** The loop, attempt by attempt: the trace it adds is made of the traces
    of the attempts, as many as the iterations at most; and once it has
    run, the result and the last log line are those of its last attempt. *)
Lemma fetchLoop_groups (c : Crawl) (u : string) (k : nat) :
  forall acc s, exists res w groups,
    fetchLoop c u k acc s = (res, mkSt w (trace s ++ List.concat groups))
    /\ Forall (AttemptTrace c u) groups
    /\ (List.length groups <= k)%nat
    /\ (k = O -> res = acc)
    /\ (k <> O ->
        wellFormedResult c res
        /\ exists t, (trace s ++ List.concat groups
                      = t ++ [EvLog (logLine http.MethodGet u (snd res))])%list).
Proof.
  induction k as [|k IH]; intros acc s.
  - exists acc, (world s), []. cbn [List.concat]. rewrite app_nil_r.
    destruct s. cbn [world trace].
    split; [reflexivity | split; [constructor | split; [cbn; lia | split]]].
    + reflexivity.
    + congruence.
  - cbn [fetchLoop]. unfold bind.
    destruct (doReq c http.MethodGet u None (Some (headers c)) s)
      as [[[b retry] err] s1] eqn:Hd.
    pose proof (doReq_wellFormed c u s s1 b retry err Hd) as HW.
    destruct (doReq_last_log c u s s1 b retry err Hd) as [t Ht].
    destruct (doReq_cases c u s) as (res0 & w & evs & E & HT & _).
    rewrite Hd in E. inversion E; subst res0 s1. clear E.
    cbn [trace] in Ht.
    destruct (isNil err || negb retry).
    + exists (b, err), w, [evs]. cbn [List.concat]. rewrite app_nil_r.
      split; [reflexivity|].
      split; [now repeat constructor|].
      split; [cbn; lia|].
      split; [discriminate|].
      intros _. split; [exact HW|]. exists t. exact Ht.
    + destruct (IH (b, err) (mkSt w (trace s ++ evs)))
        as (res & w' & groups & E' & HF & Hlen & Hzero & Hpos).
      rewrite E'. cbn [trace].
      exists res, w', (evs :: groups). cbn [List.concat].
      rewrite <- app_assoc.
      split; [reflexivity|].
      split; [now constructor|].
      split; [cbn; lia|].
      split; [discriminate|].
      intros _.
      destruct k as [|k].
      * rewrite (Hzero eq_refl). cbn [snd].
        assert (groups = [])
          by (destruct groups; [reflexivity | cbn in Hlen; lia]).
        subst groups. cbn [List.concat]. rewrite app_nil_r.
        split; [exact HW | eauto].
      * destruct (Hpos ltac:(discriminate)) as [HW' [t' Ht']].
        cbn [trace] in Ht'. rewrite <- app_assoc in Ht'.
        split; [exact HW' | eauto].
Qed.

Lemma groups_counts (c : Crawl) (u : string) (groups : list (list Event)) :
  Forall (AttemptTrace c u) groups ->
  attempts (List.concat groups) = List.length groups
  /\ (exchanges (List.concat groups) <= List.length groups)%nat
  /\ (drains (List.concat groups) <= exchanges (List.concat groups))%nat.
Proof.
  induction 1 as [|evs groups HT HF IH]; [cbn; lia|].
  cbn [List.concat List.length].
  rewrite attempts_app, exchanges_app, drains_app.
  destruct (AttemptTrace_counts c u evs HT).
  pose proof (AttemptTrace_drains c u evs HT). lia.
Qed.

(** X1.  [fetch] never makes more attempts than [Attempts]: what it adds to
    the trace is the traces of its attempts, one after the other, each with
    one log line, one exchange at most and a drain only after an exchange;
    so exchanges and drains are bounded by [Attempts] too. *)
Theorem fetch_attempts_bounded (c : Crawl) (u : string) (s : St) :
  exists res w groups,
    fetch c u s = (res, mkSt w (trace s ++ List.concat groups))
    /\ Forall (AttemptTrace c u) groups
    /\ attempts (List.concat groups) = List.length groups
    /\ Z.of_nat (attempts (List.concat groups)) <= Z.max 0 (Attempts (opt c))
    /\ (drains (List.concat groups) <= exchanges (List.concat groups)
        <= attempts (List.concat groups))%nat.
Proof.
  destruct (fetchLoop_groups c u (Z.to_nat (Attempts (opt c))) (None, None) s)
    as ([body err] & w & groups & E & HF & Hlen & _).
  rewrite (fetch_unfold c u s body err _ E).
  destruct (groups_counts c u groups HF) as (Ha & Hx & Hd).
  do 3 eexists. split; [reflexivity|].
  repeat split; [exact HF | exact Ha | lia | exact Hd | lia].
Qed.

(** X2.  [fetch] hands back a body or an error, never both; once an attempt
    was allowed, a fetch without error hands back a slice that is not nil
    and holds [MaxBytes] bytes at most (none when [MaxBytes] is zero or
    negative). *)
Theorem fetch_body_within_MaxBytes (c : Crawl) (u : string) (s s1 : St)
        (body : ByteSlice) (err : option error) :
  1 <= Attempts (opt c) ->
  fetch c u s = ((body, err), s1) ->
  (err <> None -> body = None)
  /\ (err = None ->
      exists b, body = Some b
        /\ Z.of_nat (List.length b) <= Z.max 0 (MaxBytes (opt c))).
Proof.
  intros Hatt Hf.
  destruct (fetchLoop_groups c u (Z.to_nat (Attempts (opt c))) (None, None) s)
    as ([body' err'] & w & groups & E & _ & _ & _ & Hpos).
  rewrite (fetch_unfold c u s body' err' _ E) in Hf.
  destruct (Hpos ltac:(lia)) as [HW _]. unfold wellFormedResult in HW.
  cbn [fst snd] in HW.
  destruct err' as [e|]; inversion Hf; subst.
  - split; [reflexivity | discriminate].
  - split; [congruence | intros _; exact HW].
Qed.

(** X5.  Once an attempt was allowed, the last thing [fetch] does is to log
    the outcome it returns: the line of its last attempt, with OK or with
    the text of the error. *)
Theorem fetch_logs_its_outcome (c : Crawl) (u : string) (s s1 : St)
        (body : ByteSlice) (err : option error) :
  1 <= Attempts (opt c) ->
  fetch c u s = ((body, err), s1) ->
  exists t,
    trace s1
    = (t ++ [EvLog ("GET " ++ u ++ " -> "
                    ++ match err with Some e => e | None => "OK" end)])%list.
Proof.
  intros Hatt Hf.
  destruct (fetchLoop_groups c u (Z.to_nat (Attempts (opt c))) (None, None) s)
    as ([body' err'] & w & groups & E & _ & _ & _ & Hpos).
  rewrite (fetch_unfold c u s body' err' _ E) in Hf.
  destruct (Hpos ltac:(lia)) as [_ [t Ht]]. cbn [snd] in Ht.
  exists t.
  destruct err' as [e|]; inversion Hf; subst; cbn [trace]; exact Ht.
Qed.

Lemma endMet_iff (r : http.Reader) (n : Z) :
  http.endMet r n = true
  <-> Z.of_nat (List.length (http.rdata r)) < n
      \/ (Z.of_nat (List.length (http.rdata r)) = n /\ 0 < n
          /\ http.rwith r = true).
Proof.
  unfold http.endMet.
  rewrite orb_true_iff, !andb_true_iff, Z.ltb_lt, Z.eqb_eq, Z.ltb_lt.
  tauto.
Qed.

(** X3.  A 200 response whose body breaks off with a read error.  When the
    error is met within the limit (the body holds fewer than [MaxBytes]
    bytes, or exactly [MaxBytes > 0] bytes and the reader reports the error
    with the last of them) the attempt fails with that error, is retriable
    and the loop goes on to the next attempt.  Otherwise (the body holds
    more than [MaxBytes] bytes, or exactly [MaxBytes] and the error would
    come by a read of its own, or [MaxBytes] is zero) the limited reader
    ends first, the error is never met and the attempt succeeds on the
    first [MaxBytes] bytes. *)
Theorem read_error_is_retriable (c : Crawl) (u : string) (s : St)
        (pu : http.URL) (r : http.Response) (w : World) (e : error) :
  url_Parse u = Ok pu ->
  hc_Do (sentRequest c pu) (world s) = (Ok r, w) ->
  http.StatusCode r = 200 ->
  http.rend (http.RespBody r) = Some e ->
  let sent := http.rdata (http.RespBody r) in
  let s1 := mkSt w (trace s ++
                      [EvDo (sentRequest c pu); EvDrain;
                       EvLog (logLine http.MethodGet u (Some e))]) in
  (Z.of_nat (List.length sent) < MaxBytes (opt c)
   \/ (Z.of_nat (List.length sent) = MaxBytes (opt c)
       /\ 0 < MaxBytes (opt c)
       /\ http.rwith (http.RespBody r) = true) ->
   doReq c http.MethodGet u None (Some (headers c)) s
   = ((None, true, Some e), s1)
   /\ forall k acc,
        fetchLoop c u (S k) acc s = fetchLoop c u k (None, Some e) s1)
  /\ (MaxBytes (opt c) < Z.of_nat (List.length sent)
      \/ (Z.of_nat (List.length sent) = MaxBytes (opt c)
          /\ (MaxBytes (opt c) = 0
              \/ http.rwith (http.RespBody r) = false)) ->
      fst (doReq c http.MethodGet u None (Some (headers c)) s)
      = (Some (firstn (Z.to_nat (MaxBytes (opt c))) sent), false, None)).
Proof.
  intros Hp Hd Hst Hend sent s1.
  assert (Hr : readResponse c u r
               = if http.endMet (http.RespBody r) (MaxBytes (opt c))
                 then (None, true, Some e)
                 else (Some (firstn (Z.to_nat (MaxBytes (opt c))) sent),
                       false, None)).
  { unfold readResponse. rewrite ReadAll_LimitReader.
    rewrite Hst. change (negb (200 =? http.StatusOK)) with false. cbv iota.
    rewrite Hend.
    now destruct (http.endMet (http.RespBody r) (MaxBytes (opt c))). }
  split.
  - intros Hmet. apply endMet_iff in Hmet. rewrite Hmet in Hr.
    assert (Hdo : doReq c http.MethodGet u None (Some (headers c)) s
                  = ((None, true, Some e), s1)).
    { rewrite (doReq_response c u s pu r w Hp Hd), Hr. reflexivity. }
    split; [exact Hdo|].
    intros k acc. apply (fetchLoop_retry c u k acc s None e s1 Hdo).
  - intros Hnot.
    assert (E : http.endMet (http.RespBody r) (MaxBytes (opt c)) = false).
    { destruct (http.endMet (http.RespBody r) (MaxBytes (opt c))) eqn:E;
        [|reflexivity].
      apply endMet_iff in E. fold sent in E.
      destruct Hnot as [Hlong|[Heq [Hz|Hw]]];
        destruct E as [Hlt|(Heq' & Hpos & Hw')]; try lia; congruence. }
    rewrite E in Hr.
    rewrite (doReq_response c u s pu r w Hp Hd), Hr. reflexivity.
Qed.

Lemma fetchLoop_parse_error (c : Crawl) (u : string) (e : error) :
  url_Parse u = Err e ->
  forall k acc s,
    fetchLoop c u k acc s
    = (match k with O => acc | S _ => (None, Some e) end,
       mkSt (world s)
         (trace s ++ repeat (EvLog (logLine http.MethodGet u (Some e))) k)).
Proof.
  intros Hp. induction k as [|k IH]; intros acc s.
  - cbn. rewrite app_nil_r. now destruct s.
  - rewrite (fetchLoop_retry c u k acc s None e _
               (doReq_parse_error c u s e Hp)), IH.
    cbn [world trace repeat]. rewrite <- app_assoc. cbn [app].
    destruct k; reflexivity.
Qed.

(** X4.  A URL the request cannot be built from is retriable like a
    transport failure: [fetch] goes through all its attempts, logs the same
    error at each, asks nothing of any server and returns that error. *)
Theorem malformed_url_uses_all_attempts (c : Crawl) (u : string) (s : St)
        (e : error) :
  1 <= Attempts (opt c) ->
  url_Parse u = Err e ->
  fetch c u s
  = ((None, Some e),
     mkSt (world s)
       (trace s ++ repeat (EvLog ("GET " ++ u ++ " -> " ++ e))
                     (Z.to_nat (Attempts (opt c))))).
Proof.
  intros Hatt Hp.
  apply (fetch_unfold c u s None (Some e)).
  rewrite (fetchLoop_parse_error c u e Hp).
  destruct (Z.to_nat (Attempts (opt c))) eqn:Ek; [lia | reflexivity].
Qed.

(** X6.  Every request sent by [fetch] for a crawler made by [New] carries
    the configured user agent as its only header (no content type) and has
    no body. *)
Theorem requests_carry_user_agent (o : Opt) (sch : Schema) (u : string)
        (s : St) :
  exists res w evs,
    fetch (New o sch) u s = (res, mkSt w (trace s ++ evs))
    /\ Forall (fun ev => forall req, ev = EvDo req ->
                 http.ReqHeader req = [("User-Agent", [UserAgent o])]
                 /\ http.Get (http.ReqHeader req) "User-Agent" = UserAgent o
                 /\ http.Get (http.ReqHeader req) "Content-Type" = ""
                 /\ http.ReqBody req = None) evs.
Proof.
  destruct (fetchLoop_trace (New o sch) u
              (Z.to_nat (Attempts (opt (New o sch)))) (None, None) s)
    as ([body err] & w & evs & E & HR).
  rewrite (fetch_unfold (New o sch) u s body err _ E).
  do 3 eexists; split; [reflexivity|].
  unfold requestsFor in HR. rewrite Forall_forall in HR |- *.
  intros ev Hin req Hev.
  destruct (HR ev Hin req Hev) as (pu & Hp & ->).
  rewrite sentRequest_eq. cbn. repeat split.
Qed.

(** ** More on the provenance verifier *)

Lemma CheckProvenance_fetch_error (c : Crawl) (u : v1.URL)
      (manifestURL : string) (s s1 : St) (body : ByteSlice) (e : error) :
  v1.WellKnown u <> "" ->
  fetch c (v1.WellKnown u) s = ((body, Some e), s1) ->
  CheckProvenance c u manifestURL s = (Some e, s1).
Proof.
  intros Hwk Hf. unfold CheckProvenance.
  destruct (String.eqb (v1.WellKnown u) "") eqn:E.
  - apply String.eqb_eq in E. contradiction.
  - unfold bind. rewrite Hf. reflexivity.
Qed.

(** X8.  A check of a reference with a disclosure list passes exactly when
    the list was fetched without error and one of its first 102 lines is,
    byte for byte, the manifest URL; the state it leaves is the one the
    fetch left. *)
Theorem provenance_pass_iff (c : Crawl) (u : v1.URL) (manifestURL : string)
        (s s1 : St) :
  v1.WellKnown u <> "" ->
  CheckProvenance c u manifestURL s = (None, s1)
  <-> exists body,
        fetch c (v1.WellKnown u) s = ((body, None), s1)
        /\ In (bytes_of manifestURL)
              (firstn 102 (bytes_Split (contents body) newline)).
Proof.
  intros Hwk. split.
  - intros H.
    destruct (fetch c (v1.WellKnown u) s) as [[body [e|]] s'] eqn:Hf.
    + rewrite (CheckProvenance_fetch_error c u manifestURL s s' body e Hwk Hf)
        in H. discriminate.
    + rewrite (CheckProvenance_fetched c u manifestURL s s' body Hwk Hf) in H.
      inversion H as [[Hr Hs]]. exists body. split; [reflexivity|].
      apply (scan_pass_inv manifestURL 101 _ 0 eq_refl Hr).
  - intros (body & Hf & Hin).
    rewrite (CheckProvenance_fetched c u manifestURL s s1 body Hwk Hf).
    now rewrite (scan_pass manifestURL 101 _ 0 eq_refl Hin).
Qed.

(** X9.  Whatever the reference, a check makes [Attempts] attempts at most,
    and every request it sends is the one [fetch] sends for the disclosure
    list of that reference: no other URL is asked for. *)
Theorem provenance_asks_only_WellKnown (c : Crawl) (u : v1.URL)
        (manifestURL : string) (s : St) :
  exists res w evs,
    CheckProvenance c u manifestURL s = (res, mkSt w (trace s ++ evs))
    /\ Z.of_nat (attempts evs) <= Z.max 0 (Attempts (opt c))
    /\ (exchanges evs <= attempts evs)%nat
    /\ Forall (fun ev => forall req, ev = EvDo req ->
                 exists pu, url_Parse (v1.WellKnown u) = Ok pu
                   /\ req = http.mkRequest http.MethodGet
                              (http.withRawQuery pu "") (headers c) None) evs.
Proof.
  unfold CheckProvenance.
  destruct (String.eqb (v1.WellKnown u) "").
  - exists None, (world s), []. rewrite app_nil_r. destruct s. cbn.
    repeat split; [lia | lia | constructor].
  - unfold bind.
    destruct (fetchLoop_groups c (v1.WellKnown u)
                (Z.to_nat (Attempts (opt c))) (None, None) s)
      as ([body err] & w & groups & E & HF & Hlen & _).
    rewrite (fetch_unfold c (v1.WellKnown u) s body err _ E).
    destruct (groups_counts c (v1.WellKnown u) groups HF) as (Ha & Hx & _).
    assert (HR : Forall (fun ev => forall req, ev = EvDo req ->
                 exists pu, url_Parse (v1.WellKnown u) = Ok pu
                   /\ req = http.mkRequest http.MethodGet
                              (http.withRawQuery pu "") (headers c) None)
                   (List.concat groups)).
    { clear -HF. induction HF as [|evs groups HT HF IH]; [constructor|].
      cbn [List.concat]. apply Forall_app. split; [|exact IH].
      pose proof (AttemptTrace_requests c (v1.WellKnown u) evs HT) as HR.
      unfold requestsFor in HR. rewrite Forall_forall in HR |- *.
      intros ev Hin req Hev. destruct (HR ev Hin req Hev) as (pu & Hp & ->).
      exists pu. split; [exact Hp | apply sentRequest_eq]. }
    destruct err as [e|].
    + exists (Some e), w, (List.concat groups).
      split; [reflexivity|]. repeat split; [lia | lia | exact HR].
    + eexists _, w, (List.concat groups).
      split; [reflexivity|]. repeat split; [lia | lia | exact HR].
Qed.

(** X7.  In terms of the bytes of the list: the check fails with the
    too-many-lines error exactly when the body holds 101 newline bytes or
    more and none of its first 102 lines is the manifest URL; a newline at
    the end of the list counts, as it opens one more (empty) line. *)
Theorem too_many_lines_by_newlines (c : Crawl) (u : v1.URL)
        (manifestURL : string) (s s1 : St) (body : ByteSlice) :
  v1.WellKnown u <> "" ->
  fetch c (v1.WellKnown u) s = ((body, None), s1) ->
  CheckProvenance c u manifestURL s = (Some errTooManyLines, s1)
  <-> (101 <= List.length (filter (fun ch => Byte.eqb ch newline)
                             (contents body)))%nat
      /\ ~ In (bytes_of manifestURL)
              (firstn 102 (bytes_Split (contents body) newline)).
Proof.
  intros Hwk Hf.
  rewrite (CheckProvenance_fetched c u manifestURL s s1 body Hwk Hf).
  pose proof (bytes_Split_length (contents body) newline) as Hlen.
  split.
  - intros H.
    destruct (scanLines (bytes_of manifestURL) manifestURL
                (bytes_Split (contents body) newline) 0) as [r k] eqn:E.
    cbn [fst] in H. inversion H; subst r.
    destruct (scan_cap_inv manifestURL _ 0 101 k eq_refl E) as (Hl & Hn & _).
    split; [lia | exact Hn].
  - intros [Hcount Hnot].
    assert (Hl : (101 < List.length (bytes_Split (contents body) newline))%nat)
      by lia.
    rewrite (scan_cap manifestURL 101 _ 0 eq_refl Hl Hnot).
    reflexivity.
Qed.

Lemma bytes_of_nonempty (m : string) : m <> "" -> bytes_of m <> [].
Proof. destruct m; [congruence | discriminate]. Qed.

(** X15.  With [Attempts] zero or negative a reference that has a
    disclosure list can never be verified: the check scans the nil slice,
    which is one empty line, and fails with the not-found error for every
    manifest URL but the empty one, without asking any server. *)
Theorem provenance_without_attempts (c : Crawl) (u : v1.URL)
        (manifestURL : string) (s : St) :
  Attempts (opt c) <= 0 ->
  v1.WellKnown u <> "" ->
  (manifestURL <> "" ->
   CheckProvenance c u manifestURL s = (Some (errNotFound manifestURL), s))
  /\ (manifestURL = "" -> CheckProvenance c u manifestURL s = (None, s)).
Proof.
  intros Hatt Hwk.
  assert (Hf : fetch c (v1.WellKnown u) s = ((None, None), s)).
  { apply (fetch_unfold c (v1.WellKnown u) s None None s).
    replace (Z.to_nat (Attempts (opt c))) with O by lia. reflexivity. }
  rewrite (CheckProvenance_fetched c u manifestURL s s None Hwk Hf).
  split.
  - intros Hne. apply bytes_of_nonempty in Hne. cbn.
    destruct (bytes_of manifestURL); [congruence | reflexivity].
  - intros ->. reflexivity.
Qed.

(** ** More on the orchestrator *)

Lemma CheckProvenance_no_list (c : Crawl) (u : v1.URL) (manifestURL : string)
      (s : St) :
  hasWellKnown u = false ->
  CheckProvenance c u manifestURL s = (None, s).
Proof.
  unfold hasWellKnown, CheckProvenance. intros H.
  apply negb_false_iff in H. now rewrite H.
Qed.

Lemma checkAll_no_lists (c : Crawl) (manifestURL : string) (us : list v1.URL) :
  forallb (fun u => negb (hasWellKnown u)) us = true ->
  forall s, checkAll c us manifestURL s = (None, s).
Proof.
  induction us as [|u us IH]; intros H s; [reflexivity|].
  cbn [forallb] in H. apply andb_true_iff in H. destruct H as [Hu Hus].
  apply negb_true_iff in Hu.
  cbn [checkAll]. unfold bind.
  rewrite (CheckProvenance_no_list c u manifestURL s Hu). now apply IH.
Qed.

(** X10.  [ParseManifest] acts on the outside world only in its provenance
    phase: when the state it leaves differs from the one it was given,
    [checkProvenance] was set, the body decoded, the validator accepted, and
    a reference of the validated manifest points to a disclosure list. *)
Theorem ParseManifest_network_only_for_provenance (c : Crawl) (b : ByteSlice)
        (manifestURL : string) (cp : bool) (s : St) :
  snd (ParseManifest c b manifestURL cp s) <> s ->
  cp = true
  /\ exists m0 v,
       UnmarshalJSON b = (m0, None)
       /\ Validate (sc c) (v1.stamp m0 manifestURL b) = (v, None)
       /\ Exists (fun u => v1.WellKnown u <> "") (provenanceRefs v).
Proof.
  intros Hs.
  destruct (UnmarshalJSON b) as [m0 [e|]] eqn:Hu.
  { exfalso. apply Hs. unfold ParseManifest. now rewrite Hu. }
  destruct (Validate (sc c) (v1.stamp m0 manifestURL b)) as [v [e|]] eqn:Hv.
  { exfalso. apply Hs. unfold ParseManifest. now rewrite Hu, Hv. }
  rewrite (ParseManifest_validated c b manifestURL cp s m0 v Hu Hv) in Hs.
  destruct cp; [|exfalso; now apply Hs].
  split; [reflexivity|]. exists m0, v. split; [reflexivity|].
  split; [exact Hv|].
  destruct (forallb (fun u => negb (hasWellKnown u)) (provenanceRefs v))
    eqn:Hall.
  - exfalso. apply Hs.
    now rewrite (checkAll_no_lists c manifestURL _ Hall s).
  - apply Exists_exists.
    assert (Hex : existsb hasWellKnown (provenanceRefs v) = true).
    { clear -Hall. induction (provenanceRefs v) as [|u us IH];
        [discriminate|]. cbn in *.
      destruct (hasWellKnown u); [reflexivity|]. now apply IH. }
    apply existsb_exists in Hex. destruct Hex as (u & Hin & Hu').
    exists u. split; [exact Hin|].
    unfold hasWellKnown in Hu'. apply negb_true_iff in Hu'.
    now apply String.eqb_neq.
Qed.

Lemma checkAll_pass_inv (c : Crawl) (manifestURL : string) (us : list v1.URL) :
  forall s s',
    checkAll c us manifestURL s = (None, s') ->
    Passed c manifestURL us s s'.
Proof.
  induction us as [|u us IH]; intros s s' H.
  - inversion H; subst. constructor.
  - cbn [checkAll] in H. unfold bind in H.
    destruct (CheckProvenance c u manifestURL s) as [[e|] s1] eqn:Hc;
      [discriminate|].
    econstructor; [exact Hc | now apply IH].
Qed.

Lemma Passed_each (c : Crawl) (manifestURL : string) us s s' :
  Passed c manifestURL us s s' ->
  forall u, In u us ->
    exists sa sb, CheckProvenance c u manifestURL sa = (None, sb).
Proof.
  induction 1 as [s|u0 us s s1 s2 Hc HP IH]; intros u Hin; [destruct Hin|].
  destruct Hin as [->|Hin]; [eauto | now apply IH].
Qed.

Lemma CheckProvenance_pass_vouched (c : Crawl) (u : v1.URL)
      (manifestURL : string) (s s1 : St) :
  v1.WellKnown u <> "" ->
  CheckProvenance c u manifestURL s = (None, s1) ->
  exists body,
    fetch c (v1.WellKnown u) s = ((body, None), s1)
    /\ In (bytes_of manifestURL)
          (firstn 102 (bytes_Split (contents body) newline)).
Proof.
  intros Hwk H.
  destruct (fetch c (v1.WellKnown u) s) as [[body [e|]] s'] eqn:Hf.
  - rewrite (CheckProvenance_fetch_error c u manifestURL s s' body e Hwk Hf)
      in H. discriminate.
  - rewrite (CheckProvenance_fetched c u manifestURL s s' body Hwk Hf) in H.
    inversion H as [[Hr Hs]]. exists body. split; [reflexivity|].
    apply (scan_pass_inv manifestURL 101 _ 0 eq_refl Hr).
Qed.

(** X11.  Verification is all or nothing: when [ParseManifest] returns no
    error with [checkProvenance] set, the manifest returned is the one the
    validator accepted, the checks of all its references passed one after
    the other in document order, and for each reference that points to a
    disclosure list that list was fetched without error and holds the
    manifest URL among its first 102 lines. *)
Theorem no_error_means_all_checks_passed (c : Crawl) (b : ByteSlice)
        (manifestURL : string) (s s' : St) (m : v1.Manifest) :
  ParseManifest c b manifestURL true s = ((m, None), s') ->
  (exists m0,
      UnmarshalJSON b = (m0, None)
      /\ Validate (sc c) (v1.stamp m0 manifestURL b) = (m, None))
  /\ Passed c manifestURL (provenanceRefs m) s s'
  /\ forall u, In u (provenanceRefs m) -> v1.WellKnown u <> "" ->
       exists sa sb body,
         fetch c (v1.WellKnown u) sa = ((body, None), sb)
         /\ In (bytes_of manifestURL)
               (firstn 102 (bytes_Split (contents body) newline)).
Proof.
  intros H.
  destruct (UnmarshalJSON b) as [m0 [e|]] eqn:Hu.
  { unfold ParseManifest in H. rewrite Hu in H. discriminate. }
  destruct (Validate (sc c) (v1.stamp m0 manifestURL b)) as [v [e|]] eqn:Hv.
  { unfold ParseManifest in H. rewrite Hu, Hv in H. discriminate. }
  rewrite (ParseManifest_validated c b manifestURL true s m0 v Hu Hv) in H.
  destruct (checkAll c (provenanceRefs v) manifestURL s) as [r s2] eqn:Hc.
  inversion H; subst m r s2.
  pose proof (checkAll_pass_inv c manifestURL _ s s' Hc) as HP.
  split; [exists m0; split; [reflexivity | exact Hv] | split; [exact HP|]].
  intros u Hin Hwk.
  destruct (Passed_each c manifestURL _ s s' HP u Hin) as (sa & sb & Hpass).
  destruct (CheckProvenance_pass_vouched c u manifestURL sa sb Hwk Hpass)
    as (body & Hf & Hl).
  eauto.
Qed.

Lemma CheckProvenance_cost (c : Crawl) (u : v1.URL) (manifestURL : string)
      (s : St) :
  exists res w evs,
    CheckProvenance c u manifestURL s = (res, mkSt w (trace s ++ evs))
    /\ (attempts evs
        <= if hasWellKnown u then Z.to_nat (Attempts (opt c)) else 0)%nat
    /\ (exchanges evs <= attempts evs)%nat.
Proof.
  destruct (hasWellKnown u) eqn:Hwk.
  - unfold CheckProvenance. unfold hasWellKnown in Hwk.
    apply negb_true_iff in Hwk. rewrite Hwk. unfold bind.
    destruct (fetchLoop_groups c (v1.WellKnown u)
                (Z.to_nat (Attempts (opt c))) (None, None) s)
      as ([body err] & w & groups & E & HF & Hlen & _).
    rewrite (fetch_unfold c (v1.WellKnown u) s body err _ E).
    destruct (groups_counts c (v1.WellKnown u) groups HF) as (Ha & Hx & _).
    destruct err as [e|]; do 3 eexists;
      (split; [reflexivity | split; lia]).
  - rewrite (CheckProvenance_no_list c u manifestURL s Hwk).
    exists None, (world s), []. rewrite app_nil_r. destruct s.
    split; [reflexivity | cbn; lia].
Qed.

Lemma checkAll_cost (c : Crawl) (manifestURL : string) (us : list v1.URL) :
  forall s, exists res w evs,
    checkAll c us manifestURL s = (res, mkSt w (trace s ++ evs))
    /\ (attempts evs
        <= Z.to_nat (Attempts (opt c)) * List.length (filter hasWellKnown us))%nat
    /\ (exchanges evs <= attempts evs)%nat.
Proof.
  induction us as [|u us IH]; intros s.
  - exists None, (world s), []. rewrite app_nil_r. destruct s.
    split; [reflexivity | cbn; lia].
  - cbn [checkAll]. unfold bind.
    destruct (CheckProvenance_cost c u manifestURL s)
      as (r & w & evs & E & Ha & Hx).
    rewrite E. cbn [filter].
    destruct r as [e|].
    + exists (Some e), w, evs. split; [reflexivity|].
      destruct (hasWellKnown u); cbn [List.length]; split; nia.
    + destruct (IH (mkSt w (trace s ++ evs)))
        as (r' & w' & evs' & E' & Ha' & Hx').
      rewrite E'. cbn [trace]. rewrite <- app_assoc.
      exists r', w', (evs ++ evs')%list. split; [reflexivity|].
      rewrite attempts_app, exchanges_app.
      destruct (hasWellKnown u); cbn [List.length]; split; nia.
Qed.

(** X12.  The cost of [ParseManifest] is bounded by the manifest: with
    [checkProvenance] set it makes [Attempts] attempts at most for each
    reference of the validated manifest that points to a disclosure list,
    and no more exchanges than attempts; without it, it makes no attempt
    at all and returns the validated manifest in the state it was given. *)
Theorem ParseManifest_attempts_bounded (c : Crawl) (b : ByteSlice)
        (manifestURL : string) (cp : bool) (s : St) (m0 v : v1.Manifest) :
  UnmarshalJSON b = (m0, None) ->
  Validate (sc c) (v1.stamp m0 manifestURL b) = (v, None) ->
  (exists res w evs,
      ParseManifest c b manifestURL cp s = (res, mkSt w (trace s ++ evs))
      /\ (attempts evs
          <= if cp
             then Z.to_nat (Attempts (opt c)) * List.length (checkedRefs v)
             else 0)%nat
      /\ (exchanges evs <= attempts evs)%nat)
  /\ (cp = false -> ParseManifest c b manifestURL cp s = ((v, None), s)).
Proof.
  intros Hu Hv.
  rewrite (ParseManifest_validated c b manifestURL cp s m0 v Hu Hv).
  destruct cp.
  - split; [|discriminate].
    destruct (checkAll_cost c manifestURL (provenanceRefs v) s)
      as (r & w & evs & E & Ha & Hx).
    rewrite E. exists (v, r), w, evs. split; [reflexivity|].
    split; [exact Ha | exact Hx].
  - split; [|reflexivity].
    exists (v, None), (world s), []. rewrite app_nil_r. destruct s.
    split; [reflexivity | cbn; lia].
Qed.

(** X13.  End to end: the server answers 200 on the first attempt with a
    body that is read without error, the body decodes, the validator
    accepts, and the checks of all references pass (each has no disclosure
    list or is vouched for): [FetchManifest] returns the validator's
    manifest without error, after the state the checks left. *)
Theorem FetchManifest_end_to_end (c : Crawl) (u : string) (s s2 : St)
        (pu : http.URL) (r : http.Response) (w : World)
        (m0 v : v1.Manifest) :
  1 <= Attempts (opt c) ->
  url_Parse u = Ok pu ->
  hc_Do (sentRequest c pu) (world s) = (Ok r, w) ->
  http.StatusCode r = 200 ->
  http.rend (http.RespBody r) = None ->
  let body := Some (firstn (Z.to_nat (MaxBytes (opt c)))
                      (http.rdata (http.RespBody r))) in
  let s1 := mkSt w (trace s ++ [EvDo (sentRequest c pu); EvDrain;
                                EvLog (logLine http.MethodGet u None)]) in
  UnmarshalJSON body = (m0, None) ->
  Validate (sc c) (v1.stamp m0 u body) = (v, None) ->
  Passed c u (provenanceRefs v) s1 s2 ->
  FetchManifest c u s = ((v, None), s2).
Proof.
  intros Hatt Hp Hd Hst Hend body s1 Hu Hv HP.
  assert (Hr : readResponse c u r = (body, false, None)).
  { unfold readResponse. rewrite ReadAll_LimitReader.
    rewrite Hst. change (negb (200 =? http.StatusOK)) with false. cbv iota.
    rewrite Hend.
    now destruct (http.endMet (http.RespBody r) (MaxBytes (opt c))). }
  assert (Hf : fetch c u s = ((body, None), s1)).
  { apply (fetch_unfold c u s body None s1).
    destruct (Z.to_nat (Attempts (opt c))) as [|k] eqn:Ek; [lia|].
    apply fetchLoop_stop with (retry := false); [|reflexivity].
    rewrite (doReq_response c u s pu r w Hp Hd), Hr. reflexivity. }
  unfold FetchManifest, bind. rewrite Hf.
  rewrite (ParseManifest_validated c body u true s1 m0 v Hu Hv).
  now rewrite (checkAll_pass c u _ s1 s2 HP).
Qed.

(** X14.  When the server answers the manifest URL with a status other than
    200, [FetchManifest] returns the zero manifest and the status error
    after that one exchange; the body is neither decoded nor validated. *)
Theorem FetchManifest_status_error (c : Crawl) (u : string) (s : St)
        (pu : http.URL) (r : http.Response) (w : World) :
  1 <= Attempts (opt c) ->
  url_Parse u = Ok pu ->
  hc_Do (sentRequest c pu) (world s) = (Ok r, w) ->
  http.StatusCode r <> 200 ->
  FetchManifest c u s
  = ((v1.zero, Some (u ++ " returned " ++ fmt_d (http.StatusCode r))),
     mkSt w (trace s ++
               [EvDo (sentRequest c pu); EvDrain;
                EvLog ("GET " ++ u ++ " -> " ++ u ++ " returned "
                       ++ fmt_d (http.StatusCode r))])).
Proof.
  intros Hatt Hp Hd Hst.
  assert (Hr : readResponse c u r
               = (None, false,
                  Some (u ++ " returned " ++ fmt_d (http.StatusCode r)))).
  { unfold readResponse.
    assert (E : (http.StatusCode r =? http.StatusOK) = false)
      by (apply Z.eqb_neq; exact Hst).
    now rewrite E. }
  assert (Hf : fetch c u s
               = ((None, Some (u ++ " returned " ++ fmt_d (http.StatusCode r))),
                  mkSt w (trace s ++
                            [EvDo (sentRequest c pu); EvDrain;
                             EvLog (logLine http.MethodGet u
                                      (Some (u ++ " returned "
                                             ++ fmt_d (http.StatusCode r))))]))).
  { apply (fetch_unfold c u s None
             (Some (u ++ " returned " ++ fmt_d (http.StatusCode r)))).
    destruct (Z.to_nat (Attempts (opt c))) as [|k] eqn:Ek; [lia|].
    apply fetchLoop_stop with (retry := false); [|reflexivity].
    rewrite (doReq_response c u s pu r w Hp Hd), Hr. reflexivity. }
  unfold FetchManifest, bind. rewrite Hf. reflexivity.
Qed.

End Pipeline.

(** ** The theorems at work on the scripted world *)

(** A 404 on the first of three attempts: one exchange, and the answer that
    was still to come is left untouched. *)
Lemma non200_is_terminal_witness :
  fetch Demo.Parse Demo.Do Demo.c3 Demo.funding
    (mkSt [Demo.status 404; Demo.ok "late"] [])
  = ((None, Some "https://a.example/funding.json returned 404"),
     mkSt [Demo.ok "late"]
       [EvDo (sentRequest Demo.c3
                (http.mkURL "" "" Demo.funding "" ""));
        EvDrain;
        EvLog "GET https://a.example/funding.json -> https://a.example/funding.json returned 404"]).
Proof.
  edestruct (non200_is_terminal Demo.World Demo.Parse Demo.Do Demo.c3
               Demo.funding (mkSt [Demo.status 404; Demo.ok "late"] []))
    as (_ & _ & Hf & _).
  - cbn; lia.
  - reflexivity.
  - reflexivity.
  - cbn; lia.
  - rewrite Hf. reflexivity.
Defined.

(** Two timeouts and then an answer: three attempts allowed reach the
    answer, two do not. *)
Lemma fetch_retry_bound_witness :
  (fst (fetch Demo.Parse Demo.Do (Demo.crawl 3 1000 Demo.accept) Demo.funding
          (mkSt [Err "timeout"; Err "reset"; Demo.ok "{}"] []))
   = (Some (bytes_of "{}"), None)
   /\ attempts (trace (snd (fetch Demo.Parse Demo.Do
                              (Demo.crawl 3 1000 Demo.accept) Demo.funding
                              (mkSt [Err "timeout"; Err "reset"; Demo.ok "{}"]
                                 []))))
      = 3%nat)
  /\ (fst (fetch Demo.Parse Demo.Do (Demo.crawl 2 1000 Demo.accept)
             Demo.funding
             (mkSt [Err "timeout"; Err "reset"; Demo.ok "{}"] []))
      = (None, Some "reset")
      /\ attempts (trace (snd (fetch Demo.Parse Demo.Do
                                 (Demo.crawl 2 1000 Demo.accept) Demo.funding
                                 (mkSt [Err "timeout"; Err "reset";
                                        Demo.ok "{}"] []))))
         = 2%nat).
Proof.
  split.
  - edestruct (fetch_retry_bound Demo.World Demo.Parse Demo.Do
                 (Demo.crawl 3 1000 Demo.accept) Demo.funding
                 (mkSt [Err "timeout"; Err "reset"; Demo.ok "{}"] []))
      as (Hok & _ & _).
    + cbn; lia.
    + eapply Transient_cons; [vm_compute; reflexivity|].
      eapply Transient_cons; [vm_compute; reflexivity|].
      apply Transient_nil.
    + edestruct Hok as (Hf & Hn).
      * cbn; lia.
      * vm_compute; reflexivity.
      * rewrite Hf. split; [reflexivity | exact Hn].
  - edestruct (fetch_retry_bound Demo.World Demo.Parse Demo.Do
                 (Demo.crawl 2 1000 Demo.accept) Demo.funding
                 (mkSt [Err "timeout"; Err "reset"; Demo.ok "{}"] []))
      as (_ & _ & Hex).
    + cbn; lia.
    + eapply Transient_cons; [vm_compute; reflexivity|].
      eapply Transient_cons; [vm_compute; reflexivity|].
      apply Transient_nil.
    + destruct Hex as (Hf & Hn); [reflexivity|].
      rewrite Hf. split; [reflexivity | exact Hn].
Defined.

(** A body of eleven bytes read with [MaxBytes = 4]: the first four bytes,
    and no error. *)
Lemma body_truncated_to_MaxBytes_witness :
  fst (fetch Demo.Parse Demo.Do (Demo.crawl 1 4 Demo.accept) Demo.funding
         (mkSt [Demo.ok "hello world"] []))
  = (Some (bytes_of "hell"), None).
Proof.
  edestruct (body_truncated_to_MaxBytes Demo.World Demo.Parse Demo.Do
               (Demo.crawl 1 4 Demo.accept) Demo.funding
               (mkSt [Demo.ok "hello world"] []))
    as (_ & Hlong).
  - reflexivity.
  - reflexivity.
  - reflexivity.
  - destruct Hlong as (_ & _ & Hf); [cbn; lia|].
    rewrite Hf; [reflexivity | cbn; lia].
Defined.

(** With [Attempts = 0] nothing is asked of the server, whose answer stays
    in the script, and the nil slice goes to the decoder. *)
Lemma fetch_without_attempts_witness :
  fetch Demo.Parse Demo.Do (Demo.crawl 0 1000 Demo.accept) Demo.funding
    (mkSt [Demo.ok "{}"] [])
  = ((None, None), mkSt [Demo.ok "{}"] [])
  /\ FetchManifest Demo.Parse Demo.Do Demo.Unmarshal
       (Demo.crawl 0 1000 Demo.accept) Demo.funding (mkSt [Demo.ok "{}"] [])
     = ((v1.zero, Some "error parsing JSON body: unexpected end of JSON input"),
        mkSt [Demo.ok "{}"] []).
Proof.
  destruct (fetch_without_attempts Demo.World Demo.Parse Demo.Do Demo.Unmarshal
              (Demo.crawl 0 1000 Demo.accept) Demo.funding
              (mkSt [Demo.ok "{}"] [])) as (Hf & Hm).
  - cbn; lia.
  - rewrite Hf, Hm. split; reflexivity.
Defined.

(** A reference without a disclosure list, in a world where any exchange
    would be refused. *)
Lemma empty_WellKnown_passes_witness :
  CheckProvenance Demo.Parse Demo.Do Demo.c3 (Demo.ref "") Demo.funding
    (mkSt [] [])
  = (None, mkSt [] []).
Proof.
  apply (empty_WellKnown_passes Demo.World Demo.Parse Demo.Do Demo.c3
           (Demo.ref "") Demo.funding (mkSt [] [])).
  reflexivity.
Defined.

(** The request sent for a URL with a query: the query is gone. *)
Example query_string_dropped_example :
  Demo.Parse "https://a.example/funding.json?v=2"
  = Ok (http.mkURL "" "" "https://a.example/funding.json" "v=2" "")
  /\ trace (snd (fetch Demo.Parse Demo.Do Demo.c3
                   "https://a.example/funding.json?v=2"
                   (mkSt [Demo.ok "{}"] [])))
     = [EvDo (http.mkRequest "GET"
                (http.mkURL "" "" "https://a.example/funding.json" "" "")
                [("User-Agent", ["portal"])] None);
        EvDrain;
        EvLog "GET https://a.example/funding.json?v=2 -> OK"].
Proof. split; reflexivity. Qed.

(** A URL with the query [v=2]: the request handed to the client for it
    has an empty query, and it is the first thing [fetch] does. *)
Lemma query_string_dropped_witness :
  exists res w evs,
    fetch Demo.Parse Demo.Do Demo.c3 "https://a.example/funding.json?v=2"
      (mkSt [Demo.ok "{}"] [])
    = (res,
       mkSt w
         ([] ++ EvDo (http.mkRequest "GET"
                        (http.withRawQuery
                           (http.mkURL "" "" "https://a.example/funding.json"
                              "v=2" "") "")
                        (headers Demo.c3) None) :: evs)).
Proof.
  destruct (query_string_dropped Demo.World Demo.Parse Demo.Do Demo.c3
              "https://a.example/funding.json?v=2" (mkSt [Demo.ok "{}"] []))
    as [Hfirst _].
  pose proof (Hfirst (http.mkURL "" "" "https://a.example/funding.json"
                        "v=2" "") eq_refl) as H.
  cbv zeta in H. destruct H as (_ & _ & Hf).
  apply Hf. cbn; lia.
Defined.

(** A list of 102 lines, none of them the manifest URL: too many lines,
    after 102 comparisons. *)
Lemma too_many_lines_at_index_101_witness :
  CheckProvenance Demo.Parse Demo.Do Demo.c3 (Demo.ref Demo.wk) Demo.funding
    (mkSt [Demo.ok (Demo.linesOf 102 "x")] [])
  = (Some errTooManyLines,
     snd (fetch Demo.Parse Demo.Do Demo.c3 Demo.wk
            (mkSt [Demo.ok (Demo.linesOf 102 "x")] [])))
  /\ snd (scanLines (bytes_of Demo.funding) Demo.funding
            (bytes_Split (bytes_of (Demo.linesOf 102 "x")) newline) 0)
     = 102%nat.
Proof.
  edestruct (too_many_lines_at_index_101 Demo.World Demo.Parse Demo.Do Demo.c3
               (Demo.ref Demo.wk) Demo.funding
               (mkSt [Demo.ok (Demo.linesOf 102 "x")] []))
    as (Hiff & Hcount).
  - discriminate.
  - vm_compute; reflexivity.
  - split.
    + apply Hiff. split.
      * apply Nat.leb_le. vm_compute; reflexivity.
      * apply absent_by_Equal. vm_compute; reflexivity.
    + apply Hcount.
      * apply Nat.leb_le. vm_compute; reflexivity.
      * apply absent_by_Equal. vm_compute; reflexivity.
Defined.

(** The claim of a cap at 100 examined lines fails on the code: after 101
    lines without a match the scan goes on and passes on the 102nd line; a
    list of exactly 101 lines without a match ends with the not-found
    error; and on 102 lines without a match the lines compared are 102, not
    101 at most. *)
Lemma too_many_lines_counterexample :
  (~ In (bytes_of Demo.funding)
       (firstn 101 (bytes_Split
                      (bytes_of (Demo.linesOf 101 "x" ++ Demo.nl
                                 ++ Demo.funding)) newline))
   /\ fst (CheckProvenance Demo.Parse Demo.Do Demo.c3 (Demo.ref Demo.wk)
             Demo.funding
             (mkSt [Demo.ok (Demo.linesOf 101 "x" ++ Demo.nl ++ Demo.funding)]
                []))
      = None)
  /\ (List.length (bytes_Split (bytes_of (Demo.linesOf 101 "x")) newline)
      = 101%nat
      /\ fst (CheckProvenance Demo.Parse Demo.Do Demo.c3 (Demo.ref Demo.wk)
                Demo.funding (mkSt [Demo.ok (Demo.linesOf 101 "x")] []))
         = Some (errNotFound Demo.funding))
  /\ ~ (snd (scanLines (bytes_of Demo.funding) Demo.funding
               (bytes_Split (bytes_of (Demo.linesOf 102 "x")) newline) 0)
        <= 101)%nat.
Proof.
  split; [split | split; [split|]].
  - apply absent_by_Equal. vm_compute; reflexivity.
  - vm_compute; reflexivity.
  - vm_compute; reflexivity.
  - vm_compute; reflexivity.
  - apply Nat.lt_nge, Nat.ltb_lt. vm_compute; reflexivity.
Qed.

(** The examples of the spec: the list of two lines vouches for the manifest
    URL, and not for the same URL followed by a space. *)
Lemma provenance_scan_exact_witness :
  fst (CheckProvenance Demo.Parse Demo.Do Demo.c3 (Demo.ref Demo.wk)
         Demo.funding (mkSt [Demo.ok Demo.twoLines] []))
  = None
  /\ fst (CheckProvenance Demo.Parse Demo.Do Demo.c3 (Demo.ref Demo.wk)
            (Demo.funding ++ " ") (mkSt [Demo.ok Demo.twoLines] []))
     = Some "manifest URL https://a.example/funding.json  was not found in the .well-known list".
Proof.
  split.
  - edestruct (provenance_scan_exact Demo.World Demo.Parse Demo.Do Demo.c3
                 (Demo.ref Demo.wk) Demo.funding
                 (mkSt [Demo.ok Demo.twoLines] []))
      as (_ & _ & _ & Hhit & _).
    + discriminate.
    + vm_compute; reflexivity.
    + rewrite (Hhit [] [bytes_of "https://other"]).
      * reflexivity.
      * vm_compute; reflexivity.
      * intros [].
      * cbn; lia.
  - edestruct (provenance_scan_exact Demo.World Demo.Parse Demo.Do Demo.c3
                 (Demo.ref Demo.wk) (Demo.funding ++ " ")
                 (mkSt [Demo.ok Demo.twoLines] []))
      as (_ & _ & _ & _ & Hmiss).
    + discriminate.
    + vm_compute; reflexivity.
    + rewrite Hmiss.
      * reflexivity.
      * apply absent_by_Equal. vm_compute; reflexivity.
      * apply Nat.leb_le. vm_compute; reflexivity.
Defined.

(** A validator that echoes its argument shows what it was given: the
    decoded manifest with the source URL and the input bytes; its error and
    its manifest come back as they are, and nothing is fetched. *)
Lemma validator_manifest_returned_witness :
  ParseManifest Demo.Parse Demo.Do Demo.Unmarshal
    (Demo.crawl 3 1000 Demo.echo) (Some (bytes_of "{}")) Demo.funding true
    (mkSt [Demo.ok Demo.funding] [])
  = ((v1.mkManifest Demo.funding (Some (bytes_of "{}"))
        (v1.TheEntity Demo.manifest2) (v1.Projects Demo.manifest2),
      Some "echo"),
     mkSt [Demo.ok Demo.funding] []).
Proof.
  edestruct (validator_manifest_returned Demo.World Demo.Parse Demo.Do
               Demo.Unmarshal (Demo.crawl 3 1000 Demo.echo)
               (Some (bytes_of "{}")) Demo.funding true
               (mkSt [Demo.ok Demo.funding] []))
    as (_ & Herr & _).
  - reflexivity.
  - apply Herr. reflexivity.
Defined.

(** The entity's list answers 404 and there are two projects: the error of
    the entity's check is returned after one exchange, and the four answers
    meant for the projects are still in the script.  In a second run the
    entity and the webpage of the first project pass and its repository
    fails: three exchanges, in that order, and the two answers meant for the
    second project are still in the script. *)
Lemma provenance_document_order_witness :
  (fst (ParseManifest Demo.Parse Demo.Do Demo.Unmarshal Demo.c3
          (Some (bytes_of "{}")) Demo.funding true
          (mkSt [Demo.status 404; Demo.ok Demo.funding; Demo.ok Demo.funding;
                 Demo.ok Demo.funding; Demo.ok Demo.funding] []))
   = (v1.stamp Demo.manifest2 Demo.funding (Some (bytes_of "{}")),
      Some "https://a.example/.well-known/funding-manifest-urls returned 404")
   /\ exchanges
        (trace (snd (ParseManifest Demo.Parse Demo.Do Demo.Unmarshal Demo.c3
                       (Some (bytes_of "{}")) Demo.funding true
                       (mkSt [Demo.status 404; Demo.ok Demo.funding;
                              Demo.ok Demo.funding; Demo.ok Demo.funding;
                              Demo.ok Demo.funding] []))))
      = 1%nat)
  /\ (fst (ParseManifest Demo.Parse Demo.Do Demo.Unmarshal Demo.c3
             (Some (bytes_of "{}")) Demo.funding true
             (mkSt [Demo.ok Demo.funding; Demo.ok Demo.funding;
                    Demo.status 404; Demo.ok Demo.funding;
                    Demo.ok Demo.funding] []))
      = (v1.stamp Demo.manifest2 Demo.funding (Some (bytes_of "{}")),
         Some "https://r1.example/wk returned 404")
      /\ world (snd (ParseManifest Demo.Parse Demo.Do Demo.Unmarshal Demo.c3
                       (Some (bytes_of "{}")) Demo.funding true
                       (mkSt [Demo.ok Demo.funding; Demo.ok Demo.funding;
                              Demo.status 404; Demo.ok Demo.funding;
                              Demo.ok Demo.funding] [])))
         = [Demo.ok Demo.funding; Demo.ok Demo.funding]).
Proof.
  split.
  - edestruct (provenance_document_order Demo.World Demo.Parse Demo.Do
                 Demo.Unmarshal Demo.c3 (Some (bytes_of "{}")) Demo.funding
                 (mkSt [Demo.status 404; Demo.ok Demo.funding;
                        Demo.ok Demo.funding; Demo.ok Demo.funding;
                        Demo.ok Demo.funding] []))
      as (_ & Hfail & _).
    + reflexivity.
    + reflexivity.
    + erewrite (Hfail [] (Demo.ref Demo.wk)); cycle 1.
      * reflexivity.
      * apply Passed_nil.
      * vm_compute; reflexivity.
      * split; reflexivity.
  - edestruct (provenance_document_order Demo.World Demo.Parse Demo.Do
                 Demo.Unmarshal Demo.c3 (Some (bytes_of "{}")) Demo.funding
                 (mkSt [Demo.ok Demo.funding; Demo.ok Demo.funding;
                        Demo.status 404; Demo.ok Demo.funding;
                        Demo.ok Demo.funding] []))
      as (_ & Hfail & _).
    + reflexivity.
    + reflexivity.
    + erewrite (Hfail [Demo.ref Demo.wk; Demo.ref "https://p1.example/wk"]
                  (Demo.ref "https://r1.example/wk")); cycle 1.
      * reflexivity.
      * eapply Passed_cons; [vm_compute; reflexivity|].
        eapply Passed_cons; [vm_compute; reflexivity|].
        apply Passed_nil.
      * vm_compute; reflexivity.
      * split; reflexivity.
Defined.

(** ** The added theorems at work on the scripted world *)

(** Eleven bytes sent, four allowed: a slice of four bytes, not nil. *)
Lemma fetch_body_within_MaxBytes_witness :
  exists b,
    fst (fst (fetch Demo.Parse Demo.Do (Demo.crawl 1 4 Demo.accept)
                Demo.funding (mkSt [Demo.ok "hello world"] [])))
    = Some b
    /\ Z.of_nat (List.length b) <= Z.max 0 4.
Proof.
  edestruct (fetch_body_within_MaxBytes Demo.World Demo.Parse Demo.Do
               (Demo.crawl 1 4 Demo.accept) Demo.funding
               (mkSt [Demo.ok "hello world"] [])) as [_ Hok].
  - cbn; lia.
  - vm_compute; reflexivity.
  - destruct (Hok eq_refl) as (b & Hb & Hlen).
    exists b. split; [|exact Hlen].
    rewrite <- Hb. reflexivity.
Defined.

(** A body of three bytes that breaks off.  With 1000 bytes allowed the
    attempt fails and may be retried; so it does with three bytes allowed
    when the error comes with the last byte; with three bytes allowed and
    the error after them, or with two bytes allowed, the break is never
    met. *)
Lemma read_error_is_retriable_witness :
  (fst (doReq Demo.Parse Demo.Do (Demo.crawl 2 1000 Demo.accept) "GET"
          Demo.funding None
          (Some (headers (Demo.crawl 2 1000 Demo.accept)))
          (mkSt [Demo.broken "par" false; Demo.ok "{}"] []))
   = (None, true, Some "unexpected EOF")
   /\ fst (doReq Demo.Parse Demo.Do (Demo.crawl 2 3 Demo.accept) "GET"
             Demo.funding None
             (Some (headers (Demo.crawl 2 3 Demo.accept)))
             (mkSt [Demo.broken "par" true; Demo.ok "{}"] []))
      = (None, true, Some "unexpected EOF"))
  /\ (fst (doReq Demo.Parse Demo.Do (Demo.crawl 2 3 Demo.accept) "GET"
             Demo.funding None
             (Some (headers (Demo.crawl 2 3 Demo.accept)))
             (mkSt [Demo.broken "par" false; Demo.ok "{}"] []))
      = (Some (bytes_of "par"), false, None)
      /\ fst (doReq Demo.Parse Demo.Do (Demo.crawl 2 2 Demo.accept) "GET"
                Demo.funding None
                (Some (headers (Demo.crawl 2 2 Demo.accept)))
                (mkSt [Demo.broken "par" true; Demo.ok "{}"] []))
         = (Some (bytes_of "pa"), false, None)).
Proof.
  split; split.
  - edestruct (read_error_is_retriable Demo.World Demo.Parse Demo.Do
                 (Demo.crawl 2 1000 Demo.accept) Demo.funding
                 (mkSt [Demo.broken "par" false; Demo.ok "{}"] []))
      as [Hmet _].
    + reflexivity.
    + reflexivity.
    + reflexivity.
    + reflexivity.
    + destruct Hmet as [Hd _]; [left; cbn; lia|].
      change http.MethodGet with "GET" in Hd. rewrite Hd. reflexivity.
  - edestruct (read_error_is_retriable Demo.World Demo.Parse Demo.Do
                 (Demo.crawl 2 3 Demo.accept) Demo.funding
                 (mkSt [Demo.broken "par" true; Demo.ok "{}"] []))
      as [Hmet _].
    + reflexivity.
    + reflexivity.
    + reflexivity.
    + reflexivity.
    + destruct Hmet as [Hd _]; [right; cbn; repeat split|].
      change http.MethodGet with "GET" in Hd. rewrite Hd. reflexivity.
  - edestruct (read_error_is_retriable Demo.World Demo.Parse Demo.Do
                 (Demo.crawl 2 3 Demo.accept) Demo.funding
                 (mkSt [Demo.broken "par" false; Demo.ok "{}"] []))
      as [_ Hnot].
    + reflexivity.
    + reflexivity.
    + reflexivity.
    + reflexivity.
    + apply Hnot. right. cbn. split; [reflexivity | right; reflexivity].
  - edestruct (read_error_is_retriable Demo.World Demo.Parse Demo.Do
                 (Demo.crawl 2 2 Demo.accept) Demo.funding
                 (mkSt [Demo.broken "par" true; Demo.ok "{}"] []))
      as [_ Hnot].
    + reflexivity.
    + reflexivity.
    + reflexivity.
    + reflexivity.
    + apply Hnot. left. cbn; lia.
Defined.

(** A URL without a scheme: three attempts, three log lines, and the answer
    in the script is never used. *)
Lemma malformed_url_uses_all_attempts_witness :
  fetch Demo.Parse Demo.Do Demo.c3 ":funding.json" (mkSt [Demo.ok "{}"] [])
  = ((None, Some "missing protocol scheme"),
     mkSt [Demo.ok "{}"]
       [EvLog "GET :funding.json -> missing protocol scheme";
        EvLog "GET :funding.json -> missing protocol scheme";
        EvLog "GET :funding.json -> missing protocol scheme"]).
Proof.
  apply (malformed_url_uses_all_attempts Demo.World Demo.Parse Demo.Do
           Demo.c3 ":funding.json" (mkSt [Demo.ok "{}"] [])).
  - cbn; lia.
  - reflexivity.
Defined.

(** After a 404 the last line of the log is the error returned. *)
Lemma fetch_logs_its_outcome_witness :
  exists t,
    trace (snd (fetch Demo.Parse Demo.Do Demo.c3 Demo.funding
                  (mkSt [Demo.status 404] [])))
    = (t ++ [EvLog "GET https://a.example/funding.json -> https://a.example/funding.json returned 404"])%list.
Proof.
  edestruct (fetch_logs_its_outcome Demo.World Demo.Parse Demo.Do Demo.c3
               Demo.funding (mkSt [Demo.status 404] [])) as [t Ht].
  - cbn; lia.
  - vm_compute; reflexivity.
  - exists t. exact Ht.
Defined.

(** 101 lines and a newline at the end are 102 lines: too many. *)
Lemma too_many_lines_by_newlines_witness :
  fst (CheckProvenance Demo.Parse Demo.Do Demo.c3 (Demo.ref Demo.wk)
         Demo.funding
         (mkSt [Demo.ok (Demo.linesOf 101 "x" ++ Demo.nl)] []))
  = Some errTooManyLines.
Proof.
  edestruct (too_many_lines_by_newlines Demo.World Demo.Parse Demo.Do Demo.c3
               (Demo.ref Demo.wk) Demo.funding
               (mkSt [Demo.ok (Demo.linesOf 101 "x" ++ Demo.nl)] []))
    as [_ Hback].
  - discriminate.
  - vm_compute; reflexivity.
  - rewrite Hback; [reflexivity|]. split.
    + apply Nat.leb_le. vm_compute; reflexivity.
    + apply absent_by_Equal. vm_compute; reflexivity.
Defined.

(** The list of two lines of the spec vouches for the manifest URL. *)
Lemma provenance_pass_iff_witness :
  fst (CheckProvenance Demo.Parse Demo.Do Demo.c3 (Demo.ref Demo.wk)
         Demo.funding (mkSt [Demo.ok Demo.twoLines] []))
  = None.
Proof.
  edestruct (provenance_pass_iff Demo.World Demo.Parse Demo.Do Demo.c3
               (Demo.ref Demo.wk) Demo.funding
               (mkSt [Demo.ok Demo.twoLines] [])) as [_ Hback].
  - discriminate.
  - rewrite Hback; [reflexivity|].
    eexists. split; [vm_compute; reflexivity|].
    vm_compute. left. reflexivity.
Defined.

(** A run that asked a server: it had references to check. *)
Lemma ParseManifest_network_only_for_provenance_witness :
  exists m0 v,
    Demo.Unmarshal (Some (bytes_of "{}")) = (m0, None)
    /\ Validate (sc Demo.c3) (v1.stamp m0 Demo.funding (Some (bytes_of "{}")))
       = (v, None)
    /\ Exists (fun u => v1.WellKnown u <> "") (provenanceRefs v).
Proof.
  apply (ParseManifest_network_only_for_provenance Demo.World Demo.Parse
           Demo.Do Demo.Unmarshal Demo.c3 (Some (bytes_of "{}")) Demo.funding
           true (mkSt [Demo.status 404] [])).
  intros H. vm_compute in H. discriminate H.
Defined.

(** Five lists that all hold the manifest URL: no error, and the five
    checks passed in document order. *)
Lemma no_error_means_all_checks_passed_witness :
  Passed Demo.Parse Demo.Do Demo.c3 Demo.funding
    (provenanceRefs
       (v1.stamp Demo.manifest2 Demo.funding (Some (bytes_of "{}"))))
    (mkSt [Demo.ok Demo.funding; Demo.ok Demo.twoLines; Demo.ok Demo.funding;
           Demo.ok Demo.twoLines; Demo.ok Demo.funding] [])
    (snd (ParseManifest Demo.Parse Demo.Do Demo.Unmarshal Demo.c3
            (Some (bytes_of "{}")) Demo.funding true
            (mkSt [Demo.ok Demo.funding; Demo.ok Demo.twoLines;
                   Demo.ok Demo.funding; Demo.ok Demo.twoLines;
                   Demo.ok Demo.funding] []))).
Proof.
  apply (no_error_means_all_checks_passed Demo.World Demo.Parse Demo.Do
           Demo.Unmarshal Demo.c3 (Some (bytes_of "{}")) Demo.funding).
  vm_compute; reflexivity.
Defined.


(** Five references with a list, three attempts each: fifteen attempts at
    most, here one. *)
Lemma ParseManifest_attempts_bounded_witness :
  (exists res w evs,
      ParseManifest Demo.Parse Demo.Do Demo.Unmarshal Demo.c3
        (Some (bytes_of "{}")) Demo.funding true (mkSt [Demo.status 404] [])
      = (res, mkSt w ([] ++ evs))
      /\ (attempts evs <= 3 * 5)%nat
      /\ (exchanges evs <= attempts evs)%nat)
  /\ ParseManifest Demo.Parse Demo.Do Demo.Unmarshal Demo.c3
       (Some (bytes_of "{}")) Demo.funding false (mkSt [Demo.status 404] [])
     = ((v1.stamp Demo.manifest2 Demo.funding (Some (bytes_of "{}")), None),
        mkSt [Demo.status 404] []).
Proof.
  split.
  - exact (proj1 (ParseManifest_attempts_bounded Demo.World Demo.Parse
                    Demo.Do Demo.Unmarshal Demo.c3 (Some (bytes_of "{}"))
                    Demo.funding true (mkSt [Demo.status 404] [])
                    Demo.manifest2
                    (v1.stamp Demo.manifest2 Demo.funding
                       (Some (bytes_of "{}")))
                    eq_refl eq_refl)).
  - exact (proj2 (ParseManifest_attempts_bounded Demo.World Demo.Parse
                    Demo.Do Demo.Unmarshal Demo.c3 (Some (bytes_of "{}"))
                    Demo.funding false (mkSt [Demo.status 404] [])
                    Demo.manifest2
                    (v1.stamp Demo.manifest2 Demo.funding
                       (Some (bytes_of "{}")))
                    eq_refl eq_refl) eq_refl).
Defined.

(** The manifest and the five lists are served: the manifest comes back
    stamped with its URL and body, after six exchanges. *)
Lemma FetchManifest_end_to_end_witness :
  fst (FetchManifest Demo.Parse Demo.Do Demo.Unmarshal Demo.c3 Demo.funding
         (mkSt [Demo.ok "{}"; Demo.ok Demo.funding; Demo.ok Demo.twoLines;
                Demo.ok Demo.funding; Demo.ok Demo.twoLines;
                Demo.ok Demo.funding] []))
  = (v1.mkManifest Demo.funding (Some (bytes_of "{}"))
       (v1.TheEntity Demo.manifest2) (v1.Projects Demo.manifest2), None)
  /\ exchanges
       (trace (snd (FetchManifest Demo.Parse Demo.Do Demo.Unmarshal Demo.c3
                      Demo.funding
                      (mkSt [Demo.ok "{}"; Demo.ok Demo.funding;
                             Demo.ok Demo.twoLines; Demo.ok Demo.funding;
                             Demo.ok Demo.twoLines; Demo.ok Demo.funding]
                         []))))
     = 6%nat.
Proof.
  erewrite (FetchManifest_end_to_end Demo.World Demo.Parse Demo.Do
              Demo.Unmarshal Demo.c3 Demo.funding
              (mkSt [Demo.ok "{}"; Demo.ok Demo.funding; Demo.ok Demo.twoLines;
                     Demo.ok Demo.funding; Demo.ok Demo.twoLines;
                     Demo.ok Demo.funding] [])); cycle 1.
  - cbn; lia.
  - reflexivity.
  - reflexivity.
  - reflexivity.
  - reflexivity.
  - reflexivity.
  - reflexivity.
  - eapply Passed_cons; [vm_compute; reflexivity|].
    eapply Passed_cons; [vm_compute; reflexivity|].
    eapply Passed_cons; [vm_compute; reflexivity|].
    eapply Passed_cons; [vm_compute; reflexivity|].
    eapply Passed_cons; [vm_compute; reflexivity|].
    apply Passed_nil.
  - split; reflexivity.
Defined.

(** The manifest URL answers 503: the zero manifest, the status error, and
    the answer that was still to come is left in the script. *)
Lemma FetchManifest_status_error_witness :
  FetchManifest Demo.Parse Demo.Do Demo.Unmarshal Demo.c3 Demo.funding
    (mkSt [Demo.status 503; Demo.ok "{}"] [])
  = ((v1.zero, Some "https://a.example/funding.json returned 503"),
     mkSt [Demo.ok "{}"]
       [EvDo (sentRequest Demo.c3 (http.mkURL "" "" Demo.funding "" ""));
        EvDrain;
        EvLog "GET https://a.example/funding.json -> https://a.example/funding.json returned 503"]).
Proof.
  apply (FetchManifest_status_error Demo.World Demo.Parse Demo.Do
           Demo.Unmarshal Demo.c3 Demo.funding
           (mkSt [Demo.status 503; Demo.ok "{}"] [])
           (http.mkURL "" "" Demo.funding "" "")
           (http.mkResponse 503 (http.mkReader [] None false)) [Demo.ok "{}"]).
  - cbn; lia.
  - reflexivity.
  - reflexivity.
  - cbn; lia.
Defined.

(** No attempts allowed: the list that would vouch for the manifest URL is
    never asked for and the check fails. *)
Lemma provenance_without_attempts_witness :
  CheckProvenance Demo.Parse Demo.Do (Demo.crawl 0 1000 Demo.accept)
    (Demo.ref Demo.wk) Demo.funding (mkSt [Demo.ok Demo.twoLines] [])
  = (Some (errNotFound Demo.funding), mkSt [Demo.ok Demo.twoLines] []).
Proof.
  apply (provenance_without_attempts Demo.World Demo.Parse Demo.Do
           (Demo.crawl 0 1000 Demo.accept) (Demo.ref Demo.wk) Demo.funding
           (mkSt [Demo.ok Demo.twoLines] [])).
  - cbn; lia.
  - discriminate.
  - discriminate.
Defined.
